(** * DevOps_project1: the deployment script [run.sh] and the Express
      application [app.js], embedded and verified.

    The first part embeds [run.sh].  A bash script has no data structure to
    speak of; what it has is control flow ([set -e], [exit], [return], the
    [EXIT] trap) and effects on the host.  Both are made explicit: the script
    is written in a small monad whose state carries the one shell variable the
    script assigns ([LOCAL_PID]) and the chronological list of everything the
    script did, and whose results distinguish normal completion from [exit]
    and from death by an interrupt signal.  Whatever the host decides (is a
    tool installed, how does a command end, which pid does a background job
    get) is read from a [world].

    The second part embeds [app.js], the Express application the script
    starts and probes.  Each part has its definitions in one module and its
    statements in another. *)

From Stdlib Require Import String Ascii List Arith Bool Lia ZArith.
From Stdlib Require Import DecimalString.
Import ListNotations.
Open Scope string_scope.
Open Scope list_scope.

Module Shell.

(** The four categories of status line ([print_status], [print_success],
    [print_warning], [print_error]). *)
Inductive level := INFO | SUCCESS | WARNING | ERROR.

(** How a command run by the script ends: it exits with a status, or the
    operator's interrupt (SIGINT) arrives while the script sits in it. *)
Inductive outcome := Exited (rc : nat) | Interrupted.

(** What the script does, in the order it does it. *)
Inductive event :=
| Call (fn : string) (args : list string)   (* entry into a script function *)
| Print (l : level) (msg : string)          (* echo -e "${COLOR}[LEVEL]${NC} msg" *)
| Echo (line : string)                      (* echo "line" *)
| Lookup (tool : string) (found : bool)     (* command -v tool >/dev/null 2>&1 *)
| Exec (argv : list string) (o : outcome)   (* foreground command, under set -e or tested by if *)
| Try (argv : list string) (o : outcome)    (* cmd 2>/dev/null || true *)
| Spawn (argv : list string) (pid : nat)    (* cmd &   with $! = pid *)
| Kill (pid : nat).                         (* kill pid 2>/dev/null || true *)

(** The host.  The outcome of a command may depend on everything that
    happened before it; which tools are installed is fixed for the
    invocation. *)
Record world := {
  tool_present : string -> bool;
  outcome_of : list event -> list string -> outcome;
  pid_of : list event -> nat
}.

(** The shell's state: the events so far and the variable [LOCAL_PID]
    ([None] while it is unset or empty). *)
Record shell := { trace : list event; LOCAL_PID : option nat }.

(** A piece of script either completes with a value (for a command, its exit
    status), or terminates the shell through [exit rc] (also the effect of
    [set -e] on a failing command), or the shell dies of SIGINT. *)
Inductive result (A : Type) :=
| Ret (a : A)
| Exit (rc : nat)
| Sigint.
Arguments Ret {A} a.
Arguments Exit {A} rc.
Arguments Sigint {A}.

Definition M (A : Type) := shell -> result A * shell.

Definition ret {A} (a : A) : M A := fun s => (Ret a, s).

Definition bind {A B} (m : M A) (k : A -> M B) : M B :=
  fun s =>
    match m s with
    | (Ret a, s') => k a s'
    | (Exit rc, s') => (Exit rc, s')
    | (Sigint, s') => (Sigint, s')
    end.

Notation "x <- m ;; k" := (bind m (fun x => k))
  (at level 61, m at next level, right associativity).
Notation "m ;; k" := (bind m (fun _ => k))
  (at level 61, right associativity).

Definition log (e : event) : M unit :=
  fun '(Build_shell past lp) =>
    (Ret tt, {| trace := past ++ [e]; LOCAL_PID := lp |}).

(** The [exit] builtin. *)
Definition exit {A} (rc : nat) : M A := fun s => (Exit rc, s).

Definition sigint {A} : M A := fun s => (Sigint, s).

Definition set_LOCAL_PID (pid : nat) : M unit :=
  fun '(Build_shell past _) =>
    (Ret tt, {| trace := past; LOCAL_PID := Some pid |}).

Definition get_LOCAL_PID : M (option nat) :=
  fun '(Build_shell past lp) =>
    (Ret lp, {| trace := past; LOCAL_PID := lp |}).

(** [set -e]: a command that is not the condition of an [if] and is not
    followed by [||] ends the shell with its own status when that status is
    not zero. *)
Definition errexit (m : M nat) : M unit :=
  rc <- m ;;
  match rc with
  | 0 => ret tt
  | S _ => exit rc
  end.

(* print helpers, lines 16-30 *)
Definition print_status (msg : string) : M unit := log (Print INFO msg).
Definition print_success (msg : string) : M unit := log (Print SUCCESS msg).
Definition print_warning (msg : string) : M unit := log (Print WARNING msg).
Definition print_error (msg : string) : M unit := log (Print ERROR msg).
Definition echo (line : string) : M unit := log (Echo line).

(** Entry into one of the script's functions. *)
Definition call {A} (fn : string) (args : list string) (body : M A) : M A :=
  log (Call fn args) ;; body.

Section Script.

Variable w : world.
(** [$0], the name the script was started under. *)
Variable script : string.

(** A foreground command whose status the script looks at. *)
Definition exec (argv : list string) : M nat :=
  fun '(Build_shell past lp) =>
    let s := {| trace := past; LOCAL_PID := lp |} in
    match outcome_of w past argv with
    | Exited rc => (log (Exec argv (Exited rc)) ;; ret rc) s
    | Interrupted => (log (Exec argv Interrupted) ;; sigint) s
    end.

(** A simple command at statement level, subject to [set -e]. *)
Definition cmd (argv : list string) : M unit := errexit (exec argv).

(** [argv 2>/dev/null || true]. *)
Definition quietly (argv : list string) : M unit :=
  fun '(Build_shell past lp) =>
    let s := {| trace := past; LOCAL_PID := lp |} in
    match outcome_of w past argv with
    | Exited rc => log (Try argv (Exited rc)) s
    | Interrupted => (log (Try argv Interrupted) ;; sigint) s
    end.

(** [argv &]: the job is started in the background, [$!] is its pid and the
    status of the command is 0. *)
Definition spawn (argv : list string) : M nat :=
  fun '(Build_shell past lp) =>
    let pid := pid_of w past in
    (log (Spawn argv pid) ;; ret pid) {| trace := past; LOCAL_PID := lp |}.

(** [wait] without arguments: returns 0 once every background job has ended,
    unless the interrupt arrives first. *)
Definition wait : M unit :=
  fun '(Build_shell past lp) =>
    let s := {| trace := past; LOCAL_PID := lp |} in
    match outcome_of w past ["wait"] with
    | Exited _ => log (Exec ["wait"] (Exited 0)) s
    | Interrupted => (log (Exec ["wait"] Interrupted) ;; sigint) s
    end.

(* command_exists, lines 33-35 *)
Definition command_exists (tool : string) : M bool :=
  let found := tool_present w tool in
  log (Lookup tool found) ;; ret found.

(** [missing_tools+=("tool")] when [! command_exists tool]. *)
Definition note_missing (tool : string) (missing_tools : list string)
  : M (list string) :=
  found <- command_exists tool ;;
  if found then ret missing_tools else ret (missing_tools ++ [tool]).

(** ["${missing_tools[*]}"]: the elements joined by single spaces. *)
Definition join_words (ws : list string) : string := String.concat " " ws.

(* check_prerequisites, lines 38-66 *)
Definition check_prerequisites : M unit :=
  call "check_prerequisites" [] (
    print_status "Checking prerequisites..." ;;
    missing_tools <- note_missing "node" [] ;;
    missing_tools <- note_missing "npm" missing_tools ;;
    missing_tools <- note_missing "docker" missing_tools ;;
    missing_tools <- note_missing "docker-compose" missing_tools ;;
    match missing_tools with
    | _ :: _ =>
        print_error ("Missing required tools: " ++ join_words missing_tools) ;;
        echo "Please install the missing tools and run this script again." ;;
        exit 1
    | [] => print_success "All prerequisites are met!"
    end).

(* install_dependencies, lines 69-73 *)
Definition install_dependencies : M unit :=
  call "install_dependencies" [] (
    print_status "Installing Node.js dependencies..." ;;
    cmd ["npm"; "install"] ;;
    print_success "Dependencies installed successfully!").

(* run_tests, lines 76-81 *)
Definition run_tests : M unit :=
  call "run_tests" [] (
    print_status "Running tests..." ;;
    cmd ["npm"; "run"; "lint"] ;;
    cmd ["npm"; "test"] ;;
    print_success "All tests passed!").

(* build_docker, lines 84-88 *)
Definition build_docker : M unit :=
  call "build_docker" [] (
    print_status "Building Docker image..." ;;
    cmd ["docker"; "build"; "-t"; "devops-portfolio-app"; "."] ;;
    print_success "Docker image built successfully!").

(* start_app, lines 91-116 *)
Definition start_app (mode : string) : M unit :=
  call "start_app" [mode] (
    if mode =? "local" then
      print_status "Starting application locally..." ;;
      pid <- spawn ["npm"; "start"] ;;
      set_LOCAL_PID pid ;;
      cmd ["sleep"; "3"]
    else if mode =? "docker" then
      print_status "Starting application with Docker..." ;;
      cmd ["docker"; "run"; "-d"; "-p"; "3000:3000"; "--name";
           "devops-portfolio-app"; "devops-portfolio-app"] ;;
      cmd ["sleep"; "3"]
    else if mode =? "compose" then
      print_status "Starting application with Docker Compose..." ;;
      cmd ["docker-compose"; "up"; "-d"] ;;
      cmd ["sleep"; "5"]
    else
      print_error ("Invalid mode: " ++ mode) ;;
      exit 1).

(** [curl -f -s url > /dev/null] as the condition of an [if]. *)
Definition curl (url : string) : M nat := exec ["curl"; "-f"; "-s"; url].

(* test_app, lines 119-147; the value is the function's return status *)
Definition test_app : M nat :=
  call "test_app" [] (
    print_status "Testing application endpoints..." ;;
    rc <- curl "http://localhost:3000/health" ;;
    match rc with
    | S _ => print_error "Health endpoint failed!" ;; ret 1
    | 0 =>
      print_success "Health endpoint is working!" ;;
      rc <- curl "http://localhost:3000" ;;
      match rc with
      | S _ => print_error "Main page failed!" ;; ret 1
      | 0 =>
        print_success "Main page is accessible!" ;;
        rc <- curl "http://localhost:3000/api/info" ;;
        match rc with
        | S _ => print_error "API endpoint failed!" ;; ret 1
        | 0 =>
          print_success "API endpoint is working!" ;;
          print_success "All endpoints are working correctly!" ;;
          ret 0
        end
      end
    end).

(* cleanup, lines 150-164 *)
Definition cleanup : M unit :=
  call "cleanup" [] (
    print_status "Cleaning up..." ;;
    pid <- get_LOCAL_PID ;;
    match pid with
    | Some p => log (Kill p)
    | None => ret tt
    end ;;
    quietly ["docker-compose"; "down"] ;;
    quietly ["docker"; "stop"; "devops-portfolio-app"] ;;
    quietly ["docker"; "rm"; "devops-portfolio-app"] ;;
    print_success "Cleanup completed!").

(** The lines [show_help] writes, lines 167-188. *)
Definition help_text : list string :=
  [ "DevOps Portfolio Project - Setup and Run Script";
    "";
    ("Usage: " ++ script ++ " [COMMAND]")%string;
    "";
    "Commands:";
    "  setup          - Install dependencies and run tests";
    "  start-local    - Start application locally with Node.js";
    "  start-docker   - Start application with Docker";
    "  start-compose  - Start application with Docker Compose";
    "  test           - Run all tests (lint + unit tests)";
    "  build          - Build Docker image";
    "  clean          - Clean up running containers and processes";
    "  full           - Run full pipeline (setup + build + test + start)";
    "  help           - Show this help message";
    "";
    "Examples:";
    ("  " ++ script ++ " setup          # Install dependencies and run tests")%string;
    ("  " ++ script ++ " start-local    # Start the app locally")%string;
    ("  " ++ script ++ " full           # Complete setup and start")%string;
    "" ].

Fixpoint echo_lines (ls : list string) : M unit :=
  match ls with
  | [] => ret tt
  | l :: ls' => echo l ;; echo_lines ls'
  end.

Definition show_help : M unit := call "show_help" [] (echo_lines help_text).

(* run_full_pipeline, lines 191-208 *)
Definition run_full_pipeline : M unit :=
  call "run_full_pipeline" [] (
    print_status "Running full DevOps pipeline..." ;;
    check_prerequisites ;;
    install_dependencies ;;
    run_tests ;;
    build_docker ;;
    start_app "compose" ;;
    errexit test_app ;;
    print_success "Full pipeline completed successfully!" ;;
    echo "" ;;
    echo "Application is running at: http://localhost:3000" ;;
    echo "Health check: http://localhost:3000/health" ;;
    echo "API info: http://localhost:3000/api/info" ;;
    echo "" ;;
    echo ("To stop the application, run: " ++ script ++ " clean")).

(** [${1:-help}]: the first argument, or [help] when it is unset or empty. *)
Definition selected (arg : option string) : string :=
  match arg with
  | None => "help"
  | Some "" => "help"
  | Some c => c
  end.

(* the case statement, lines 214-267 *)
Definition main (arg : option string) : M unit :=
  let c := selected arg in
  if c =? "setup" then
    check_prerequisites ;;
    install_dependencies ;;
    run_tests ;;
    print_success "Setup completed!"
  else if c =? "start-local" then
    check_prerequisites ;;
    start_app "local" ;;
    errexit test_app ;;
    print_success "Application is running locally at http://localhost:3000" ;;
    echo "Press Ctrl+C to stop..." ;;
    wait
  else if c =? "start-docker" then
    check_prerequisites ;;
    build_docker ;;
    start_app "docker" ;;
    errexit test_app ;;
    print_success "Application is running with Docker at http://localhost:3000" ;;
    echo "To stop: docker stop devops-portfolio-app"
  else if c =? "start-compose" then
    check_prerequisites ;;
    start_app "compose" ;;
    errexit test_app ;;
    print_success
      "Application is running with Docker Compose at http://localhost:3000" ;;
    echo "To stop: docker-compose down"
  else if c =? "test" then
    check_prerequisites ;;
    install_dependencies ;;
    run_tests
  else if c =? "build" then
    check_prerequisites ;;
    build_docker
  else if c =? "clean" then
    cleanup
  else if c =? "full" then
    run_full_pipeline
  else if (c =? "help") || (c =? "--help") || (c =? "-h") then
    show_help
  else
    print_error ("Unknown command: " ++ c) ;;
    show_help ;;
    exit 1.

(** The shell at the start of an invocation: nothing done yet.  The script
    never assigns [LOCAL_PID] before [start_app] does in local mode (line
    98), so until then the variable holds what the environment the script is
    started in gives it: [inherited], which is nothing when the variable is
    unset or empty there, and is taken to be a pid otherwise. *)
Definition fresh (inherited : option nat) : shell :=
  {| trace := []; LOCAL_PID := inherited |}.

(** 128 + SIGINT: what the caller sees when the script dies of the
    interrupt. *)
Definition SIGINT_STATUS : nat := 130.

(** The case statement, run in a fresh shell. *)
Definition body (inherited : option nat) (arg : option string)
  : result unit * shell := main arg (fresh inherited).

(** One invocation of the script. *)
Record invocation := {
  status : nat;                (* the exit status of the process *)
  body_events : list event;    (* what happened before the EXIT trap fired *)
  events : list event          (* everything, the trap's handler included *)
}.

(** [trap cleanup EXIT] (line 211) and then the case statement.  When the
    shell leaves the case statement, by reaching its end, by [exit] or by the
    interrupt, the handler runs; the status of the process is the one the
    shell had when it left, not the handler's.  An interrupt that arrives
    while the handler runs ends the process there. *)
Definition run (inherited : option nat) (arg : option string) : invocation :=
  let (r, s) := body inherited arg in
  let (r', s') := cleanup s in
  {| status :=
       match r' with
       | Sigint => SIGINT_STATUS
       | _ => match r with
              | Ret _ => 0
              | Exit rc => rc
              | Sigint => SIGINT_STATUS
              end
       end;
     body_events := trace s;
     events := trace s' |}.

End Script.

(** ** Reading a trace *)

(** The tools [check_prerequisites] looks for, in the order it does. *)
Definition required_tools : list string :=
  ["node"; "npm"; "docker"; "docker-compose"].

(** Those of them the host lacks. *)
Definition absent_tools (w : world) : list string :=
  filter (fun t => negb (tool_present w t)) required_tools.

Definition argv_eqb (a b : list string) : bool :=
  if list_eq_dec string_dec a b then true else false.

(** Was the foreground command [argv] run? *)
Definition invoked (argv : list string) (evs : list event) : bool :=
  existsb (fun e => match e with
                    | Exec a _ => argv_eqb a argv
                    | _ => false
                    end) evs.

(** The HTTP probes among the events: each [curl -f -s url] with the way it
    ended, in the order issued. *)
Definition probes (evs : list event) : list (string * outcome) :=
  flat_map (fun e => match e with
                     | Exec ["curl"; "-f"; "-s"; url] o => [(url, o)]
                     | _ => []
                     end) evs.

(** A process or container launch: a background job, [docker run] or
    [docker-compose up]. *)
Definition is_launch (e : event) : bool :=
  match e with
  | Spawn _ _ => true
  | Exec (tool :: verb :: _) _ =>
      ((tool =? "docker") && (verb =? "run"))
      || ((tool =? "docker-compose") && (verb =? "up"))
  | _ => false
  end.

(** Entries into [cleanup]. *)
Definition is_cleanup (e : event) : bool :=
  match e with
  | Call fn _ => fn =? "cleanup"
  | _ => false
  end.

Definition cleanups (evs : list event) : nat := length (filter is_cleanup evs).

(** The functions entered, with their arguments, in order. *)
Definition calls (evs : list event) : list (string * list string) :=
  flat_map (fun e => match e with Call f a => [(f, a)] | _ => [] end) evs.

(** The pids of the background jobs started, and the pids killed. *)
Definition spawned (evs : list event) : list nat :=
  flat_map (fun e => match e with Spawn _ p => [p] | _ => [] end) evs.

Definition killed (evs : list event) : list nat :=
  flat_map (fun e => match e with Kill p => [p] | _ => [] end) evs.

(** The events that make an invocation fail: a command the script depends on
    ends with a status other than 0 or is interrupted, a required tool is not
    found, or the interrupt arrives during a guarded command.  A guarded
    command that merely exits with another status is not a failure: [|| true]
    discards it. *)
Definition failed (e : event) : bool :=
  match e with
  | Exec _ (Exited 0) => false
  | Exec _ _ => true
  | Try _ Interrupted => true
  | Lookup _ false => true
  | _ => false
  end.

(** What the caller sees of the case statement alone. *)
Definition status_of (r : result unit) : nat :=
  match r with
  | Ret _ => 0
  | Exit rc => rc
  | Sigint => SIGINT_STATUS
  end.

(** Entries into [start_app]. *)
Definition is_start (e : event) : bool :=
  match e with
  | Call fn _ => fn =? "start_app"
  | _ => false
  end.

(** The commands of the case statement, line 214 onwards. *)
Definition COMMANDS : list string :=
  [ "setup"; "start-local"; "start-docker"; "start-compose"; "test"; "build";
    "clean"; "full"; "help"; "--help"; "-h" ].

Definition recognized (c : string) : bool := existsb (String.eqb c) COMMANDS.

(** ** Names used in the statements *)

Definition LINT : list string := ["npm"; "run"; "lint"].
Definition UNIT_TESTS : list string := ["npm"; "test"].

Definition HEALTH_URL : string := "http://localhost:3000/health".
Definition ROOT_URL : string := "http://localhost:3000".
Definition INFO_URL : string := "http://localhost:3000/api/info".

(** The name [test_app] gives an endpoint in its status lines. *)
Definition label (url : string) : string :=
  if url =? HEALTH_URL then "Health endpoint"
  else if url =? ROOT_URL then "Main page"
  else "API endpoint".

(** The six steps of the full pipeline. *)
Definition PIPELINE : list (string * list string) :=
  [ ("check_prerequisites", []); ("install_dependencies", []);
    ("run_tests", []); ("build_docker", []);
    ("start_app", ["compose"]); ("test_app", []) ].

(** ** Some hosts *)

(** A host on which every tool is installed and every command succeeds. *)
Definition agreeable : world :=
  {| tool_present := fun _ => true;
     outcome_of := fun _ _ => Exited 0;
     pid_of := fun _ => 4242 |}.

(** A host that has everything but node. *)
Definition nodeless : world :=
  {| tool_present := fun t => negb (t =? "node");
     outcome_of := fun _ _ => Exited 0;
     pid_of := fun _ => 4242 |}.

(** A host on which the root page does not answer: curl exits with 22 on
    it, and with 0 on everything else. *)
Definition rootless : world :=
  {| tool_present := fun _ => true;
     outcome_of := fun _ argv =>
       if argv_eqb argv ["curl"; "-f"; "-s"; ROOT_URL]
       then Exited 22 else Exited 0;
     pid_of := fun _ => 4242 |}.

(** ** More ways to read a trace *)

Definition DOWN : list string := ["docker-compose"; "down"].
Definition STOP : list string := ["docker"; "stop"; "devops-portfolio-app"].
Definition RM : list string := ["docker"; "rm"; "devops-portfolio-app"].
Definition INSTALL : list string := ["npm"; "install"].
Definition BUILD : list string :=
  ["docker"; "build"; "-t"; "devops-portfolio-app"; "."].
Definition RUN : list string :=
  ["docker"; "run"; "-d"; "-p"; "3000:3000"; "--name";
   "devops-portfolio-app"; "devops-portfolio-app"].
Definition UP : list string := ["docker-compose"; "up"; "-d"].

(** What [cleanup] adds to the trace when [LOCAL_PID] holds [pid] and its
    three guarded commands end as [o1], [o2], [o3]: an interrupt ends it on
    the spot, any exit status lets it go on. *)
Definition handler_events (pid : option nat) (o1 o2 o3 : outcome)
  : list event :=
  [ Call "cleanup" []; Print INFO "Cleaning up..." ]
  ++ match pid with Some p => [Kill p] | None => [] end
  ++ Try DOWN o1
     :: match o1 with
        | Interrupted => []
        | Exited _ =>
            Try STOP o2
            :: match o2 with
               | Interrupted => []
               | Exited _ =>
                   Try RM o3
                   :: match o3 with
                      | Interrupted => []
                      | Exited _ => [ Print SUCCESS "Cleanup completed!" ]
                      end
               end
        end.

Definition handler_result (o1 o2 o3 : outcome) : result unit :=
  match o1, o2, o3 with
  | Exited _, Exited _, Exited _ => Ret tt
  | _, _, _ => Sigint
  end.

(** What [set -e] makes of the way a command ends. *)
Definition errexit_result (o : outcome) : result unit :=
  match o with
  | Exited 0 => Ret tt
  | Exited (S n) => Exit (S n)
  | Interrupted => Sigint
  end.

(** Anything done to the host: a command run, a job started, a process
    killed. *)
Definition acts (e : event) : bool :=
  match e with
  | Exec _ _ | Try _ _ | Spawn _ _ | Kill _ => true
  | _ => false
  end.

Definition is_lookup (e : event) : bool :=
  match e with
  | Lookup _ _ => true
  | _ => false
  end.

(** The commands whose branch of the case statement starts with
    [check_prerequisites] ([full] does so through [run_full_pipeline]). *)
Definition needs_tools (c : string) : bool :=
  existsb (String.eqb c)
    [ "setup"; "start-local"; "start-docker"; "start-compose"; "test";
      "build"; "full" ].

(** [guarded trigger cond seen evs]: whenever an event of [evs] satisfies
    [trigger], everything before it ([seen] and the part of [evs] up to it)
    satisfies [cond]. *)
Fixpoint guarded (trigger : event -> bool) (cond : list event -> bool)
    (seen evs : list event) : bool :=
  match evs with
  | [] => true
  | e :: rest =>
      (if trigger e then cond seen else true)
      && guarded trigger cond (seen ++ [e]) rest
  end.

Definition enters_test_app (e : event) : bool :=
  match e with
  | Call fn _ => fn =? "test_app"
  | _ => false
  end.

(** The last thing done was a [sleep] that ran to its end. *)
Definition slept (seen : list event) : bool :=
  match rev seen with
  | Exec ("sleep" :: _) (Exited 0) :: _ => true
  | _ => false
  end.

Definition started_and_slept (seen : list event) : bool :=
  existsb is_launch seen && negb (existsb failed seen) && slept seen.

Definition is_docker_run (e : event) : bool :=
  match e with
  | Exec a _ => argv_eqb a RUN
  | _ => false
  end.

Definition built (seen : list event) : bool :=
  existsb (fun e => match e with
                    | Exec a (Exited 0) => argv_eqb a BUILD
                    | _ => false
                    end) seen.

Definition is_curl (argv : list string) : bool :=
  match argv with
  | tool :: _ => tool =? "curl"
  | [] => false
  end.

(** The status the shell is left with when the command [argv] exits with
    the status [S n]: [test_app] turns a failed probe into 1, everything else
    is passed on by [set -e] as it is. *)
Definition status_after (argv : list string) (n : nat) : nat :=
  if is_curl argv then 1 else S n.

(** A line of the help text that documents the command [c]. *)
Definition documents (c line : string) : bool :=
  String.prefix ("  " ++ c ++ " ") line.

Fixpoint until_space (s : string) : string :=
  match s with
  | EmptyString => EmptyString
  | String c s' => if Ascii.eqb c " " then EmptyString
                   else String c (until_space s')
  end.

(** The command a line of the help text's catalogue is about. *)
Definition command_of (line : string) : string :=
  match line with
  | String " " (String " " rest) => until_space rest
  | _ => EmptyString
  end.

(** The catalogue: the nine lines after the heading [Commands:]. *)
Definition catalogue (script : string) : list string :=
  firstn 9 (skipn 5 (help_text script)).

(** A host with none of the tools, on which every command exits 1. *)
Definition hostile : world :=
  {| tool_present := fun _ => false;
     outcome_of := fun _ _ => Exited 1;
     pid_of := fun _ => 4242 |}.

(** A host on which the image does not build: [docker build] exits 2. *)
Definition unbuildable : world :=
  {| tool_present := fun _ => true;
     outcome_of := fun _ argv =>
       if argv_eqb argv BUILD then Exited 2 else Exited 0;
     pid_of := fun _ => 4242 |}.

(** ** The host's part in a trace *)

(** What the script records of the way the command [argv] ended: [wait]
    returns 0 whatever the jobs it waited for returned; for every other
    command the script sees the command's own end. *)
Definition as_logged (argv : list string) (o : outcome) : outcome :=
  if argv_eqb argv ["wait"]
  then match o with Exited _ => Exited 0 | Interrupted => Interrupted end
  else o.

(** [answered w seen evs]: the events [evs], which follow the events [seen],
    are the script's record of what the host [w] did.  Each command among
    them was put to the host at the very point of the trace where it stands,
    and ended the way the host made it end there; each lookup found what the
    host has; each background job got the pid the host gave it. *)
Fixpoint answered (w : world) (seen evs : list event) : Prop :=
  match evs with
  | [] => True
  | e :: rest =>
      match e with
      | Exec argv o => o = as_logged argv (outcome_of w seen argv)
      | Try argv o => o = outcome_of w seen argv
      | Lookup tool found => found = tool_present w tool
      | Spawn _ pid => pid = pid_of w seen
      | _ => True
      end
      /\ answered w (seen ++ [e]) rest
  end.

(** ** The steps of a trace

    A trace with the printing left out and the answers of the host
    forgotten: the functions entered, the tools looked up, the commands run
    in the foreground ([Run]), guarded by [|| true] ([Attempt]) or in the
    background ([Start]), and the processes killed, in order. *)
Inductive step :=
| Enter (fn : string) (args : list string)
| Find (tool : string)
| Run (argv : list string)
| Attempt (argv : list string)
| Start (argv : list string)
| Signal (pid : nat).

Definition steps (evs : list event) : list step :=
  flat_map (fun e => match e with
                     | Call fn args => [Enter fn args]
                     | Lookup tool _ => [Find tool]
                     | Exec argv _ => [Run argv]
                     | Try argv _ => [Attempt argv]
                     | Spawn argv _ => [Start argv]
                     | Kill pid => [Signal pid]
                     | Print _ _ | Echo _ => []
                     end) evs.

(** The command line of a probe of [test_app]. *)
Definition probe_command (url : string) : list string :=
  ["curl"; "-f"; "-s"; url].

(** Everything the full pipeline does when nothing fails, lines 191-208 with
    the functions it calls written out. *)
Definition FULL_STEPS : list step :=
  [ Enter "run_full_pipeline" [];
    Enter "check_prerequisites" [];
    Find "node"; Find "npm"; Find "docker"; Find "docker-compose";
    Enter "install_dependencies" []; Run INSTALL;
    Enter "run_tests" []; Run LINT; Run UNIT_TESTS;
    Enter "build_docker" []; Run BUILD;
    Enter "start_app" ["compose"]; Run UP; Run ["sleep"; "5"];
    Enter "test_app" [];
    Run (probe_command HEALTH_URL); Run (probe_command ROOT_URL);
    Run (probe_command INFO_URL) ].

Definition is_find (st : step) : bool :=
  match st with
  | Find _ => true
  | _ => false
  end.

(** After a failure nothing is entered, run or killed any more; all that may
    follow is printing and the remaining lookups of the prerequisite
    check. *)
Fixpoint stops_at_failure (evs : list event) : bool :=
  match evs with
  | [] => true
  | e :: rest =>
      (if failed e then forallb is_find (steps rest) else true)
      && stops_at_failure rest
  end.

(** ** A view of the case statement's result, for proofs by execution *)

Definition holds (P : result unit -> list event -> option nat -> Prop)
    (x : result unit * shell) : Prop :=
  match x with
  | (r, Build_shell evs lp) => P r evs lp
  end.

End Shell.

(** * The application, [app.js]

    An Express application is a stack of layers.  A request walks down the
    stack; each layer answers it, passes it on, or raises an error, and after
    an error only error handlers are tried.  The layers and their order are
    the source's; what Express, Node and the file system contribute (route
    matching, the clock, the environment, which files [public/] holds, which
    bodies [express.json()] rejects) is read from the request and the host.

    A response is what the application hands to Express: the status and the
    value given to [res.json], or the file given to [res.sendFile].  What is
    then put on the wire is that status and that content, except that a HEAD
    request is sent no body ([on_the_wire]).  Headers (all [helmet()] does is
    set some) are left out. *)

Module App.

Open Scope Z_scope.

(** ** Date.prototype.toISOString *)

Definition msPerDay : Z := 86400000.

(** Year, month and day of the proleptic Gregorian calendar, from the number
    of days since 1970-01-01. *)
Definition civil (days : Z) : Z * Z * Z :=
  let z := days + 719468 in
  let era := z / 146097 in
  let doe := z mod 146097 in
  let yoe := (doe - doe / 1460 + doe / 36524 - doe / 146096) / 365 in
  let doy := doe - (365 * yoe + yoe / 4 - yoe / 100) in
  let mp := (5 * doy + 2) / 153 in
  let d := doy - (153 * mp + 2) / 5 + 1 in
  let m := if mp <? 10 then mp + 3 else mp - 9 in
  let y := yoe + era * 400 + (if m <=? 2 then 1 else 0) in
  (y, m, d).

Definition digit (n : Z) : ascii := ascii_of_nat (48 + Z.to_nat n).

(** The last [width] decimal digits of [n], most significant first. *)
Fixpoint pad (width : nat) (n : Z) : string :=
  match width with
  | O => EmptyString
  | S w => (pad w (n / 10) ++ String (digit (n mod 10)) EmptyString)%string
  end.

(** Four digits for the years 0 to 9999, otherwise a sign and six digits. *)
Definition year_string (y : Z) : string :=
  if (0 <=? y) && (y <=? 9999) then pad 4 y
  else ((if (y <? 0)%Z then "-" else "+") ++ pad 6 (Z.abs y))%string.

(** [new Date(t).toISOString()] for a time value [t] in milliseconds since
    the epoch: [YYYY-MM-DDTHH:mm:ss.sssZ], in UTC.  A [Date] holds time
    values up to 8.64e15 in absolute value, for which six digits are enough
    for the year. *)
Definition toISOString (t : Z) : string :=
  let '(y, m, d) := civil (t / msPerDay) in
  let ms := t mod msPerDay in
  (year_string y ++ "-" ++ pad 2 m ++ "-" ++ pad 2 d ++ "T"
   ++ pad 2 (ms / 3600000) ++ ":" ++ pad 2 (ms / 60000 mod 60) ++ ":"
   ++ pad 2 (ms / 1000 mod 60) ++ "." ++ pad 3 (ms mod 1000) ++ "Z")%string.

(** ** The host and the request *)

(** The objects the application sends are flat, with strings for values: a
    list of fields, in the order written. *)
Definition object := list (string * string).

Inductive content :=
| Json (o : object)     (* res.json(o) *)
| File (data : string)  (* res.sendFile(...) or a file served by express.static *)
| Html (text : string). (* the page Express itself writes when no layer answers *)

Record response := { code : nat; sent : content }.

Inductive method := GET | HEAD | OTHER (name : string).

(** What [express.json()] makes of the body of a request. *)
Inductive payload := Absent | WellFormed | Malformed.

Record request := { verb : method; path : string; body : payload }.

Record host := {
  env : string -> option string;         (* process.env *)
  now : Z;                               (* the time value of new Date() *)
  hostname : string;                     (* require('os').hostname() *)
  served : request -> option response;   (* what express.static('public') answers, if it answers *)
  index_html : option string             (* public/index.html, if it can be sent *)
}.

(** ** Express *)

Inductive outcome :=
| Respond (r : response)
| Next
| Throw.

Inductive layer :=
| Middleware (h : request -> outcome)
| ErrorHandler (h : request -> response).

(** The walk down the stack; [failed] once a layer has raised an error.
    When the stack is exhausted Express answers itself. *)
Fixpoint handle (stack : list layer) (failed : bool) (req : request)
  : response :=
  match stack with
  | [] =>
      if failed then {| code := 500; sent := Html "Internal Server Error" |}
      else {| code := 404; sent := Html "Not Found" |}
  | Middleware h :: rest =>
      if failed then handle rest true req
      else match h req with
           | Respond r => r
           | Next => handle rest false req
           | Throw => handle rest true req
           end
  | ErrorHandler h :: rest =>
      if failed then h req else handle rest false req
  end.

(** What is put on the wire for the response [r] to [req]: its status, and
    its content unless [req] is a HEAD request, which is answered with the
    status and the headers and no body. *)
Definition on_the_wire (req : request) (r : response) : nat * option content :=
  (code r,
   match verb req with
   | HEAD => None
   | _ => Some (sent r)
   end).

Definition lower (c : ascii) : ascii :=
  let n := nat_of_ascii c in
  if ((65 <=? n) && (n <=? 90))%nat then ascii_of_nat (n + 32) else c.

Fixpoint lowercase (s : string) : string :=
  match s with
  | EmptyString => EmptyString
  | String c s' => String (lower c) (lowercase s')
  end.

(** Route matching with Express's defaults, which the application does not
    change: letter case is ignored and one trailing slash is optional. *)
Definition route_matches (pattern p : string) : bool :=
  let p := lowercase p in
  if (pattern =? "/")%string then (p =? "/")%string || (p =? "")%string
  else (p =? pattern)%string || (p =? pattern ++ "/")%string.

(** [app.get(pattern, h)]: GET requests, and HEAD requests as well. *)
Definition get (pattern : string) (h : request -> outcome) : layer :=
  Middleware (fun req =>
    match verb req with
    | GET | HEAD => if route_matches pattern (path req) then h req else Next
    | OTHER _ => Next
    end).

(** [a || b] on [process.env] values: [b] when [a] is undefined or empty. *)
Definition or_default (a : option string) (b : string) : string :=
  match a with
  | Some (String c s) => String c s
  | Some EmptyString => b
  | None => b
  end.

Section Application.

Variable h : host.

(* app.use(helmet()) *)
Definition helmet : layer := Middleware (fun _ => Next).

(* app.use(express.static('public')) *)
Definition static : layer :=
  Middleware (fun req =>
    match verb req with
    | GET | HEAD =>
        match served h req with
        | Some r => Respond r
        | None => Next
        end
    | OTHER _ => Next
    end).

(* app.use(express.json()) *)
Definition json_parser : layer :=
  Middleware (fun req =>
    match body req with
    | Malformed => Throw
    | _ => Next
    end).

(* app.get('/', ...) *)
Definition root : layer :=
  get "/" (fun _ =>
    match index_html h with
    | Some data => Respond {| code := 200; sent := File data |}
    | None => Throw
    end).

(* app.get('/health', ...) *)
Definition health : layer :=
  get "/health" (fun _ =>
    Respond {| code := 200;
               sent := Json
                 [ ("status", "healthy");
                   ("timestamp", toISOString (now h));
                   ("version",
                    or_default (env h "npm_package_version") "1.0.0") ] |}).

(* app.get('/api/info', ...) *)
Definition info : layer :=
  get "/api/info" (fun _ =>
    Respond {| code := 200;
               sent := Json
                 [ ("message", "DevOps Portfolio Application");
                   ("environment",
                    or_default (env h "NODE_ENV") "development");
                   ("version",
                    or_default (env h "npm_package_version") "1.0.0");
                   ("hostname", hostname h) ] |}).

(* app.use((req, res) => ...) *)
Definition not_found : layer :=
  Middleware (fun _ =>
    Respond {| code := 404;
               sent := Json [("error", "Route not found")] |}).

(* app.use((err, req, res, _next) => ...) *)
Definition on_error : layer :=
  ErrorHandler (fun _ =>
    {| code := 500;
       sent := Json [("error", "Something went wrong!")] |}).

Definition stack : list layer :=
  [ helmet; static; json_parser; root; health; info; not_found; on_error ].

Definition app (req : request) : response := handle stack false req.

End Application.

(** ** Recognizers for what the health check promises *)

Definition is_digit (c : ascii) : bool :=
  let n := nat_of_ascii c in ((48 <=? n) && (n <=? 57))%nat.

(** Read [k] decimal digits off the front of [s]; [acc] is the value read so
    far. *)
Fixpoint digits (k : nat) (acc : Z) (s : string) : option (Z * string) :=
  match k with
  | O => Some (acc, s)
  | S k' =>
      match s with
      | String c s' =>
          if is_digit c
          then digits k' (10 * acc + (Z.of_nat (nat_of_ascii c) - 48)) s'
          else None
      | EmptyString => None
      end
  end.

Definition literal (c : ascii) (s : string) : option string :=
  match s with
  | String c' s' => if Ascii.eqb c c' then Some s' else None
  | EmptyString => None
  end.

Definition and_then {A B} (o : option A) (k : A -> option B) : option B :=
  match o with
  | Some a => k a
  | None => None
  end.

(** The year of an ISO 8601 date: four digits, or a sign and six. *)
Definition year_part (s : string) : option string :=
  match digits 4 0 s with
  | Some (_, rest) => Some rest
  | None =>
      match s with
      | String c s' =>
          if Ascii.eqb c "+" || Ascii.eqb c "-"
          then and_then (digits 6 0 s') (fun r => Some (snd r))
          else None
      | EmptyString => None
      end
  end.

Definition within (lo hi n : Z) : bool := (lo <=? n) && (n <=? hi).

(** An ISO 8601 date-time in the extended format, in UTC with milliseconds:
    [YYYY-MM-DDTHH:mm:ss.sssZ] (or [+YYYYYY-...], [-YYYYYY-...]), with the
    month in 01..12, the day in 01..31, the hour in 00..23 and minute and
    second in 00..59. *)
Definition is_iso8601 (s : string) : bool :=
  match
    and_then (year_part s) (fun s =>
    and_then (literal "-" s) (fun s =>
    and_then (digits 2 0 s) (fun '(month, s) =>
    and_then (literal "-" s) (fun s =>
    and_then (digits 2 0 s) (fun '(day, s) =>
    and_then (literal "T" s) (fun s =>
    and_then (digits 2 0 s) (fun '(hour, s) =>
    and_then (literal ":" s) (fun s =>
    and_then (digits 2 0 s) (fun '(minute, s) =>
    and_then (literal ":" s) (fun s =>
    and_then (digits 2 0 s) (fun '(second, s) =>
    and_then (literal "." s) (fun s =>
    and_then (digits 3 0 s) (fun '(_, s) =>
    and_then (literal "Z" s) (fun s =>
      Some (s, within 1 12 month && within 1 31 day && within 0 23 hour
               && within 0 59 minute && within 0 59 second)))))))))))))))
  with
  | Some (EmptyString, ok) => ok
  | _ => false
  end.

(** Semantic Versioning 2.0.0. *)

Definition is_alnum_hyphen (c : ascii) : bool :=
  let n := nat_of_ascii c in
  (is_digit c || ((65 <=? n) && (n <=? 90)) || ((97 <=? n) && (n <=? 122))
   || (n =? 45))%nat.

(** The pieces of [l] between occurrences of [sep]. *)
Fixpoint split_on (sep : ascii) (l : list ascii) : list (list ascii) :=
  match l with
  | [] => [[]]
  | c :: l' =>
      if Ascii.eqb c sep then [] :: split_on sep l'
      else match split_on sep l' with
           | piece :: pieces => (c :: piece) :: pieces
           | [] => [[c]]
           end
  end.

(** [l] up to the first [sep], and what follows it if there is one. *)
Fixpoint cut_at (sep : ascii) (l : list ascii)
  : list ascii * option (list ascii) :=
  match l with
  | [] => ([], None)
  | c :: l' =>
      if Ascii.eqb c sep then ([], Some l')
      else let (before, after) := cut_at sep l' in (c :: before, after)
  end.

(** A numeric identifier: digits, without a leading zero unless it is 0. *)
Definition numeric_id (id : list ascii) : bool :=
  match id with
  | [] => false
  | [c] => is_digit c
  | c :: _ => forallb is_digit id && negb (Ascii.eqb c "0")
  end.

Definition build_id (id : list ascii) : bool :=
  match id with
  | [] => false
  | _ => forallb is_alnum_hyphen id
  end.

Definition prerelease_id (id : list ascii) : bool :=
  build_id id && (if forallb is_digit id then numeric_id id else true).

Definition is_semver (v : string) : bool :=
  let (main, build) := cut_at "+" (list_ascii_of_string v) in
  let (core, pre) := cut_at "-" main in
  match split_on "." core with
  | [major; minor; patch] =>
      numeric_id major && numeric_id minor && numeric_id patch
  | _ => false
  end
  && match pre with
     | Some p => forallb prerelease_id (split_on "." p)
     | None => true
     end
  && match build with
     | Some b => forallb build_id (split_on "." b)
     | None => true
     end.

(** ** Some hosts *)

(** A host with nothing in [public/] but the index page, no environment, and
    the clock at 2024-02-05T10:30:00Z. *)
Definition plain_host : host :=
  {| env := fun _ => None;
     now := 1707129000000;
     hostname := "localhost";
     served := fun _ => None;
     index_html := Some "<html></html>" |}.

(** The same host, started with [npm_package_version=banana]. *)
Definition banana_host : host :=
  {| env := fun k => if (k =? "npm_package_version")%string
                     then Some "banana" else None;
     now := 1707129000000;
     hostname := "localhost";
     served := fun _ => None;
     index_html := Some "<html></html>" |}.

(** The paths the application has routes for. *)
Definition ROUTES : list string := ["/"; "/health"; "/api/info"].

(** ** Reading a response *)

(** The value of the field [k] of a JSON response, if it is one and has the
    field. *)
Definition field (k : string) (r : response) : option string :=
  match sent r with
  | Json o =>
      match find (fun f => (fst f =? k)%string) o with
      | Some f => Some (snd f)
      | None => None
      end
  | _ => None
  end.

Definition is_html (r : response) : bool :=
  match sent r with
  | Html _ => true
  | _ => false
  end.

(** The stack with the three [app.get] layers given in any order. *)
Definition stack_with (h : host) (routes : list layer) : list layer :=
  [ helmet; static h; json_parser ] ++ routes ++ [ not_found; on_error ].

(** The six orders in which the three routes can be registered. *)
Definition route_orders (h : host) : list (list layer) :=
  [ [root h; health h; info h]; [root h; info h; health h];
    [health h; root h; info h]; [health h; info h; root h];
    [info h; root h; health h]; [info h; health h; root h] ].

End App.

(** * The container health check, [healthcheck.js]

    The script sends one request and ends the process from one of two
    callbacks: the one for a response, and the one for an error on the
    request.  Which of the two happens, and with which status code, is the
    server's doing and is the input here.  (The [timeout] among the options
    has no handler in the script.) *)

Module Healthcheck.

Import App.

(* const options *)
Record options_t := {
  opt_hostname : string;
  opt_port : nat;
  opt_path : string;
  opt_timeout : nat
}.

Definition options : options_t :=
  {| opt_hostname := "localhost";
     opt_port := 3000;
     opt_path := "/health";
     opt_timeout := 2000 |}.

(** What happens to the request. *)
Inductive reply :=
| Response (statusCode : nat)   (* the callback given to http.request *)
| Error.                        (* healthCheck.on('error', ...) *)

(** How the process ends. *)
Record ending := { console : list string; exit_code : nat }.

Definition decimal (n : nat) : string :=
  NilEmpty.string_of_uint (Nat.to_uint n).

Definition healthCheck (r : reply) : ending :=
  match r with
  | Response statusCode =>
      {| console := [("HEALTHCHECK STATUS: " ++ decimal statusCode)%string];
         exit_code := if (statusCode =? 200)%nat then 0%nat else 1%nat |}
  | Error =>
      {| console := ["HEALTHCHECK FAILED"%string]; exit_code := 1%nat |}
  end.

(** The request [http.request(options, ...)] followed by [end()] sends: a GET
    for the path of the options, without a body. *)
Definition probe : request :=
  {| verb := GET; path := opt_path options; body := Absent |}.

(** The check run against a server. *)
Definition against (server : request -> reply) : ending :=
  healthCheck (server probe).

(** The application, listening and answering. *)
Definition serving (h : host) : request -> reply :=
  fun req => Response (code (app h req)).

End Healthcheck.

(** * The test suite, [tests/app.test.js]

    Each test sends one GET request to the application (supertest needs no
    listening server) and checks the status code and properties of the
    parsed body. *)

Module Suite.

Import App.

(* request(app).get(p) *)
Definition request_get (h : host) (p : string) : response :=
  app h {| verb := GET; path := p; body := Absent |}.

(* expect(res.body).toHaveProperty(k) *)
Definition toHaveProperty (r : response) (k : string) : bool :=
  match field k r with
  | Some _ => true
  | None => false
  end.

(* expect(res.body).toHaveProperty(k, v) *)
Definition toHavePropertyWith (r : response) (k v : string) : bool :=
  match field k r with
  | Some v' => (v' =? v)%string
  | None => false
  end.

(* expect(res.statusCode).toBe(n) *)
Definition statusCodeToBe (r : response) (n : nat) : bool := (code r =? n)%nat.

Definition get_root (h : host) : bool :=
  let res := request_get h "/" in
  statusCodeToBe res 200.

Definition get_health (h : host) : bool :=
  let res := request_get h "/health" in
  statusCodeToBe res 200
  && toHavePropertyWith res "status" "healthy"
  && toHaveProperty res "timestamp"
  && toHaveProperty res "version".

Definition get_info (h : host) : bool :=
  let res := request_get h "/api/info" in
  statusCodeToBe res 200
  && toHaveProperty res "message"
  && toHaveProperty res "environment"
  && toHaveProperty res "version"
  && toHaveProperty res "hostname".

Definition get_nonexistent (h : host) : bool :=
  let res := request_get h "/nonexistent" in
  statusCodeToBe res 404
  && toHavePropertyWith res "error" "Route not found".

(** The suite: every test with the name it is described by. *)
Definition suite (h : host) : list (string * bool) :=
  [ ("GET / should return 200 status", get_root h);
    ("GET /health should return health status", get_health h);
    ("GET /api/info should return app information", get_info h);
    ("GET /nonexistent should return 404 for non-existent routes",
     get_nonexistent h) ].

Definition passes (h : host) : bool := forallb snd (suite h).

(** A host whose [public/] directory has lost its index page. *)
Definition bare_host : host :=
  {| env := fun _ => None;
     now := 1707129000000;
     hostname := "localhost";
     served := fun _ => None;
     index_html := None |}.

End Suite.

(** * What the script does

    The statements about [run.sh], each proved by running the embedding. *)

Module ShellFacts.

Import Shell.

(** ** Symbolic execution

    Every function of the script is a closed term over the world, so a
    statement about it is settled by running it: unfold, and split on each
    answer of the world the run comes to depend on. *)

Ltac ask_world tp oo :=
  match goal with
  | |- context [oo ?h ?a] => destruct (oo h a) as [[|?]|]
  | |- context [tp ?t] => destruct (tp t)
  end.

Ltac crunch := cbv -[String.append String.concat app]; cbn [app].

(** [run_script w s] opens the world and the shell state and runs the goal
    to its leaves. *)
Ltac run_script w s :=
  let tp := fresh "present" in
  let oo := fresh "answer" in
  let po := fresh "pid" in
  let h := fresh "h" in
  let lp := fresh "lp" in
  destruct w as [tp oo po]; destruct s as [h lp];
  crunch; repeat (ask_world tp oo; crunch).

Ltac tidy := repeat rewrite <- app_assoc; cbn [app].

(** The same, keeping what the world answered. *)
Ltac ask_world_noting tp oo :=
  match goal with
  | |- context [oo ?h ?a] => destruct (oo h a) as [[|?]|] eqn:?
  | |- context [tp ?t] => destruct (tp t) eqn:?
  end.

Ltac run_script_noting w s :=
  let tp := fresh "present" in
  let oo := fresh "answer" in
  let po := fresh "pid" in
  let h := fresh "h" in
  let lp := fresh "lp" in
  destruct w as [tp oo po]; destruct s as [h lp];
  crunch; repeat (ask_world_noting tp oo; crunch).

(** [answered] at the end of a run: each event's answer is one that was
    noted on the way. *)
Ltac host_answers :=
  crunch; repeat split; symmetry; assumption.

(** *** The case statement

    For the case statement of [main] the same is done lazily: reduce the goal
    at its head until the run needs an answer of the world, split on that
    answer, and go on; at the end of each path the events are concrete. *)

Lemma holds_elim (P : result unit -> list event -> option nat -> Prop)
    (x : result unit * shell) :
  holds P x -> P (fst x) (trace (snd x)) (LOCAL_PID (snd x)).
Proof. destruct x as [r [evs lp]]; exact (fun H => H). Qed.

Ltac head_of t :=
  lazymatch t with
  | ?f _ => head_of f
  | _ => t
  end.

(** The term the head reduction of [t] is waiting for. *)
Ltac stuck_in t :=
  let hd := head_of t in
  lazymatch hd with
  | match ?x with _ => _ end => stuck_in x
  | _ => t
  end.

Ltac answer_next :=
  lazy head;
  lazymatch goal with
  | |- ?g =>
      let t := stuck_in g in
      lazymatch type of t with
      | outcome => destruct t as [[|?]|]
      | bool => destruct t
      | option nat => destruct t
      end
  end.

(** The case statement of [main], opened on the selected command [c]. *)
Ltac dispatch c :=
  repeat match goal with
         | |- context [String.eqb c ?k] =>
             destruct (String.eqb_spec c k) as [->|?]
         end.

(** [run_body w script inherited arg]: the goal speaks of
    [body w script inherited arg] through
    [fst], [trace (snd _)] and [LOCAL_PID (snd _)]; one goal is left per
    command and per path through it, with those three computed. *)
Ltac run_body w script inherited arg :=
  let tp := fresh "present" in
  let oo := fresh "answer" in
  let po := fresh "pid" in
  let c := fresh "c" in
  pattern (fst (body w script inherited arg)),
          (trace (snd (body w script inherited arg))),
          (LOCAL_PID (snd (body w script inherited arg)));
  apply holds_elim;
  unfold body, main;
  generalize (selected arg); intro c;
  dispatch c;
  destruct w as [tp oo po];
  repeat answer_next;
  lazy head; cbv -[String.append].

(** The same for one given command. *)
Ltac run_command w script inherited arg :=
  let tp := fresh "present" in
  let oo := fresh "answer" in
  let po := fresh "pid" in
  pattern (fst (body w script inherited arg)),
          (trace (snd (body w script inherited arg))),
          (LOCAL_PID (snd (body w script inherited arg)));
  apply holds_elim;
  unfold body, main;
  destruct w as [tp oo po];
  repeat answer_next;
  lazy head; cbv -[String.append].

(** The same for one given command, keeping what the world answered. *)
Ltac answer_next_noting :=
  lazy head;
  lazymatch goal with
  | |- ?g =>
      let t := stuck_in g in
      lazymatch type of t with
      | outcome => destruct t as [[|?]|] eqn:?
      | bool => destruct t eqn:?
      | option nat => destruct t
      end
  end.

Ltac run_command_noting w script inherited arg :=
  let tp := fresh "present" in
  let oo := fresh "answer" in
  let po := fresh "pid" in
  pattern (fst (body w script inherited arg)),
          (trace (snd (body w script inherited arg))),
          (LOCAL_PID (snd (body w script inherited arg)));
  apply holds_elim;
  unfold body, main;
  destruct w as [tp oo po];
  repeat answer_next_noting;
  lazy head; cbv -[String.append] in *.

(** The same on a host known to have every tool ([Ht]) and to let every
    command exit 0 ([Ho]): no splitting, the answers are rewritten in. *)
Ltac answer_well Ht Ho :=
  lazy head;
  lazymatch goal with
  | |- ?g =>
      let t := stuck_in g in
      lazymatch type of t with
      | outcome => rewrite Ho
      | bool => rewrite Ht by (cbn; auto 10)
      | option nat => destruct t
      end
  end.

(** ** check_prerequisites *)



(** ** run_tests *)


(** ** test_app *)


Ltac split_off_last_two :=
  match goal with
  | |- exists pre, ?l = pre ++ _ => exists (firstn (length l - 2) l); reflexivity
  end.



(** ** start_app *)

(** C7. For every mode other than [local], [docker] (the container mode) and
    [compose], [start_app] prints the invalid-mode error naming the mode and
    ends the shell with status 1.  It records nothing in [LOCAL_PID] and
    launches nothing: the two events it adds are its own entry and the error
    line. *)
Theorem start_app_rejects_unknown_mode (w : world) (s : shell) (mode : string) :
  mode <> "local" -> mode <> "docker" -> mode <> "compose" ->
  exists added,
    start_app w mode s =
      (Exit 1, {| trace := trace s ++ added; LOCAL_PID := LOCAL_PID s |})
    /\ added = [ Call "start_app" [mode];
                 Print ERROR ("Invalid mode: " ++ mode) ]
    /\ existsb is_launch added = false.
Proof.
  intros Hl Hd Hc.
  apply String.eqb_neq in Hl, Hd, Hc.
  eexists. split; [| split; [reflexivity | reflexivity]].
  unfold start_app. rewrite Hl, Hd, Hc.
  destruct s as [h lp]. cbv -[String.append app]. tidy. reflexivity.
Qed.

Lemma start_app_rejects_unknown_mode_witness :
  exists added,
    start_app agreeable "kubernetes" (fresh None) =
      (Exit 1, {| trace := trace (fresh None) ++ added;
                  LOCAL_PID := LOCAL_PID (fresh None) |})
    /\ added = [ Call "start_app" ["kubernetes"];
                 Print ERROR ("Invalid mode: " ++ "kubernetes") ]
    /\ existsb is_launch added = false.
Proof.
  apply (start_app_rejects_unknown_mode agreeable (fresh None) "kubernetes");
    discriminate.
Defined.

(** ** The EXIT trap *)

(** What the handler of the EXIT trap adds to an invocation, whatever the
    case statement did: one entry into [cleanup] and, after it, no further
    entry into any function, no launch, and a [kill] of exactly the pid
    [LOCAL_PID] holds, if it holds one.  The status of the process is the
    status the case statement left, unless the interrupt arrives during the
    handler; nothing else in the handler counts as a failure. *)
Lemma exit_trap (w : world) (script : string)
    (inherited : option nat) (arg : option string) :
  exists handler,
    events (run w script inherited arg)
      = body_events (run w script inherited arg) ++ Call "cleanup" [] :: handler
    /\ body_events (run w script inherited arg)
       = trace (snd (body w script inherited arg))
    /\ calls handler = []
    /\ spawned handler = []
    /\ existsb is_launch handler = false
    /\ killed handler = match LOCAL_PID (snd (body w script inherited arg)) with
                        | Some p => [p]
                        | None => []
                        end
    /\ status (run w script inherited arg)
       = (if existsb failed handler then SIGINT_STATUS
          else status_of (fst (body w script inherited arg)))
    /\ ((forall h a, outcome_of w h a <> Interrupted) ->
        existsb failed handler = false).
Proof.
  unfold run. destruct (body w script inherited arg) as [r s]. cbn [fst snd].
  destruct s as [h [p|]]; destruct w as [present answer pid]; crunch;
    repeat (match goal with
            | |- context [answer ?h ?a] =>
                destruct (answer h a) as [[|?]|] eqn:?
            end; crunch);
    eexists; (split; [tidy; reflexivity|]); repeat split;
    try (destruct r; reflexivity);
    intros Calm; first [ reflexivity | exfalso; eapply Calm; eassumption ].
Qed.

Lemma cleanups_app (a b : list event) :
  cleanups (a ++ b) = cleanups a + cleanups b.
Proof. unfold cleanups. now rewrite filter_app, length_app. Qed.

Lemma no_calls_no_cleanups (evs : list event) :
  calls evs = [] -> cleanups evs = 0.
Proof.
  induction evs as [|e evs IH]; [reflexivity|].
  destruct e; cbn; try discriminate; exact IH.
Qed.

(** Entries into [cleanup] from the case statement: one for [clean], none
    for any other argument, on every path. *)
Lemma body_cleanups (w : world) (script : string)
    (inherited : option nat) (arg : option string) :
  cleanups (trace (snd (body w script inherited arg)))
    = if selected arg =? "clean" then 1 else 0.
Proof. run_body w script inherited arg; reflexivity. Qed.

(** C1 as stated does not hold: an invocation of [clean] enters [cleanup]
    twice, once from the case statement and once from the EXIT trap. *)
Lemma clean_runs_cleanup_twice :
  cleanups (events (run agreeable "./run.sh" None (Some "clean"))) = 2
  /\ cleanups (events (run agreeable "./run.sh" None (Some "clean"))) <> 1.
Proof. split; [reflexivity | discriminate]. Qed.

(** C1, amended.  For every host (so however each step ends, an interrupt
    included), every script name and every argument, the EXIT trap enters
    [cleanup] exactly once, after everything the case statement did.  For
    every command other than [clean] that is the only entry into [cleanup]
    in the invocation; [clean] enters it twice. *)
Theorem cleanup_once_from_the_trap (w : world) (script : string)
    (inherited : option nat) (arg : option string) :
  (exists handler,
      events (run w script inherited arg)
        = body_events (run w script inherited arg)
          ++ Call "cleanup" [] :: handler
      /\ cleanups handler = 0)
  /\ cleanups (events (run w script inherited arg))
     = if selected arg =? "clean" then 2 else 1.
Proof.
  destruct (exit_trap w script inherited arg)
    as (handler & Ev & Body & Calls & _).
  apply no_calls_no_cleanups in Calls.
  split.
  - now exists handler.
  - rewrite Ev, Body, cleanups_app. change (Call "cleanup" [] :: handler)
      with ([Call "cleanup" []] ++ handler).
    rewrite cleanups_app, Calls, body_cleanups.
    now destruct (selected arg =? "clean").
Qed.

(** ** run_full_pipeline *)

Ltac some_prefix :=
  first [ exists 1; split; [lia | reflexivity]
        | exists 2; split; [lia | reflexivity]
        | exists 3; split; [lia | reflexivity]
        | exists 4; split; [lia | reflexivity]
        | exists 5; split; [lia | reflexivity]
        | exists 6; split; [lia | reflexivity] ].

Ltac as_long_as_it_is :=
  lazymatch goal with
  | |- ex (fun j => ?l = @?r j) => exists (length l); reflexivity
  end.

Lemma only_lookups_left (evs : list event) :
  forallb is_find (steps evs) = true ->
  calls evs = [] /\ filter acts evs = [].
Proof.
  induction evs as [|e evs IH]; [now split |].
  destruct e; cbn; try discriminate; exact IH.
Qed.

Lemma stops_at_failure_spec (evs : list event) :
  stops_at_failure evs = true ->
  forall pre e post,
    evs = pre ++ e :: post -> failed e = true ->
    calls post = [] /\ filter acts post = [].
Proof.
  intros Q pre. revert evs Q.
  induction pre as [|x pre IH]; intros evs Q e post -> F; cbn in Q.
  - rewrite F in Q. apply andb_true_iff in Q.
    now apply only_lookups_left.
  - apply andb_true_iff in Q. destruct Q as [_ Q]. now apply (IH _ Q e post).
Qed.

Lemma full_body (w : world) (script : string) (inherited : option nat) :
  (exists k, 1 <= k /\
     calls (trace (snd (body w script inherited (Some "full"))))
       = ("run_full_pipeline", []) :: firstn k PIPELINE)
  /\ (exists j, steps (trace (snd (body w script inherited (Some "full"))))
                = firstn j FULL_STEPS)
  /\ answered w [] (trace (snd (body w script inherited (Some "full"))))
  /\ stops_at_failure (trace (snd (body w script inherited (Some "full"))))
     = true
  /\ (existsb failed (trace (snd (body w script inherited (Some "full"))))
       = false ->
      calls (trace (snd (body w script inherited (Some "full"))))
        = ("run_full_pipeline", []) :: PIPELINE
      /\ steps (trace (snd (body w script inherited (Some "full"))))
         = FULL_STEPS).
Proof.
  run_command_noting w script inherited (Some "full");
    (split; [ some_prefix |]);
    (split; [ as_long_as_it_is |]);
    (split; [ repeat split; symmetry; assumption |]);
    (split; [ reflexivity |]);
    intros F; first [ discriminate F | split; reflexivity ].
Qed.



(** ** Exit status *)

Lemma existsb_failed_events (body handler : list event) :
  existsb failed (body ++ Call "cleanup" [] :: handler)
    = existsb failed body || existsb failed handler.
Proof. now rewrite existsb_app. Qed.

(** The case statement alone: a recognized command leaves status 0 exactly
    when nothing failed; the help commands only print the help text; anything
    else prints the error naming the command, then the help text, and leaves
    status 1. *)
Lemma body_status (w : world) (script : string)
    (inherited : option nat) (arg : option string) :
  (recognized (selected arg) = true ->
     (status_of (fst (body w script inherited arg)) = 0 <->
      existsb failed (trace (snd (body w script inherited arg))) = false))
  /\ (selected arg = "help" \/ selected arg = "--help" \/ selected arg = "-h" ->
      trace (snd (body w script inherited arg))
        = Call "show_help" [] :: map Echo (help_text script))
  /\ (recognized (selected arg) = false ->
      trace (snd (body w script inherited arg))
        = Print ERROR ("Unknown command: " ++ selected arg)
            :: Call "show_help" [] :: map Echo (help_text script)
      /\ fst (body w script inherited arg) = Exit 1).
Proof.
  cbv [recognized COMMANDS existsb].
  run_body w script inherited arg;
    (split; [ intros R; first [ discriminate R
                              | split; intros E;
                                first [ discriminate E | reflexivity ] ]
            | split; [ intros [E|[E|E]];
                       first [ discriminate E | reflexivity | congruence ]
                     | intros E; first [ discriminate E
                                       | split; reflexivity ] ] ]).
Qed.

(** On a host that has the four tools and on which every command exits 0,
    the case statement of every recognized command runs to its end. *)
Lemma body_succeeds (w : world) (script : string)
    (inherited : option nat) (arg : option string) :
  recognized (selected arg) = true ->
  (forall t, In t required_tools -> tool_present w t = true) ->
  (forall h a, outcome_of w h a = Exited 0) ->
  fst (body w script inherited arg) = Ret tt.
Proof.
  cbv [recognized COMMANDS existsb required_tools].
  intros R Ht Ho. revert R.
  pattern (fst (body w script inherited arg)),
          (trace (snd (body w script inherited arg))),
          (LOCAL_PID (snd (body w script inherited arg))).
  apply holds_elim. unfold body, main.
  generalize (selected arg); intros c; dispatch c;
    destruct w as [present answer pid]; cbn [tool_present outcome_of] in Ht, Ho;
    repeat answer_well Ht Ho; lazy head;
    intros R; first [ reflexivity | discriminate R ].
Qed.



(** ** The tracked process *)

(** What the case statement does with processes, on every path: it enters
    [start_app] at most once, launches at most one process or container and
    starts at most one background job; when it ends, [LOCAL_PID] holds the
    pid of that job if there is one, and otherwise still what it held at the
    start; and only [clean] kills, namely what [LOCAL_PID] held at the
    start. *)
Lemma body_handles (w : world) (script : string) (inherited : option nat)
    (arg : option string) :
  length (filter is_start (trace (snd (body w script inherited arg)))) <= 1
  /\ length (filter is_launch (trace (snd (body w script inherited arg)))) <= 1
  /\ length (spawned (trace (snd (body w script inherited arg)))) <= 1
  /\ LOCAL_PID (snd (body w script inherited arg))
     = match hd_error (spawned (trace (snd (body w script inherited arg)))) with
       | Some p => Some p
       | None => inherited
       end
  /\ killed (trace (snd (body w script inherited arg)))
     = if selected arg =? "clean"
       then match inherited with Some p => [p] | None => [] end
       else [].
Proof. run_body w script inherited arg; repeat split; lia. Qed.

Lemma no_calls_no_starts (evs : list event) :
  calls evs = [] -> filter is_start evs = [].
Proof.
  induction evs as [|e evs IH]; [reflexivity|].
  destruct e; cbn; try discriminate; exact IH.
Qed.

Lemma filter_none {A} (f : A -> bool) (l : list A) :
  existsb f l = false -> filter f l = [].
Proof.
  induction l as [|x l IH]; [reflexivity|]. cbn.
  destruct (f x); [discriminate | exact IH].
Qed.

Lemma spawned_before_the_trap (w : world) (script : string)
    (inherited : option nat) (arg : option string) :
  spawned (events (run w script inherited arg))
    = spawned (trace (snd (body w script inherited arg))).
Proof.
  destruct (exit_trap w script inherited arg)
    as (handler & Ev & Body & _ & Spawned & _).
  rewrite Ev, Body. unfold spawned at 1. rewrite flat_map_app.
  cbn [flat_map app]. fold (spawned handler). rewrite Spawned.
  now rewrite app_nil_r.
Qed.

(** What does hold of the tracked process, whatever [LOCAL_PID] held when
    the script was started: in every invocation [start_app] is entered at
    most once, at most one process or container is launched and at most one
    pid recorded; and the exit handler kills what [LOCAL_PID] holds at the
    end, which is the pid the invocation recorded if it recorded one, and
    otherwise the value it was started with. *)
Lemma at_most_one_handle (w : world) (script : string)
    (inherited : option nat) (arg : option string) :
  length (filter is_start (events (run w script inherited arg))) <= 1
  /\ length (filter is_launch (events (run w script inherited arg))) <= 1
  /\ length (spawned (events (run w script inherited arg))) <= 1
  /\ exists handler,
       events (run w script inherited arg)
         = body_events (run w script inherited arg)
           ++ Call "cleanup" [] :: handler
       /\ killed handler
          = match hd_error (spawned (events (run w script inherited arg))),
                  inherited with
            | Some p, _ => [p]
            | None, Some p => [p]
            | None, None => []
            end.
Proof.
  rewrite spawned_before_the_trap.
  destruct (exit_trap w script inherited arg)
    as (handler & Ev & Body & Calls & Spawned & Launch & Killed & _).
  destruct (body_handles w script inherited arg)
    as (Starts & Launches & Once & Pid & _).
  rewrite Ev, Body, !filter_app. cbn [filter is_start is_launch].
  change ("cleanup" =? "start_app") with false. cbv iota.
  rewrite (no_calls_no_starts _ Calls), (filter_none _ _ Launch), !app_nil_r.
  repeat split; try assumption.
  exists handler. split; [reflexivity |].
  rewrite Killed, Pid.
  destruct (hd_error (spawned (trace (snd (body w script inherited arg)))));
    [reflexivity | now destruct inherited].
Qed.

(** C9 does not hold of the script as it is written.  The script reads
    [LOCAL_PID] in [cleanup] but assigns it only in [start_app local]: it
    never clears it at the start.  So when the environment the script is
    started in holds a pid in [LOCAL_PID], and the invocation starts no
    process of its own, the exit handler kills that pid: a process this
    invocation never started and never recorded, which is not its to
    release. *)
Theorem inherited_pid_is_killed_on_exit (w : world) (script : string)
    (p : nat) (arg : option string) :
  spawned (events (run w script (Some p) arg)) = [] ->
  exists handler,
    events (run w script (Some p) arg)
      = body_events (run w script (Some p) arg) ++ Call "cleanup" [] :: handler
    /\ killed handler = [p].
Proof.
  intros Nothing.
  destruct (at_most_one_handle w script (Some p) arg)
    as (_ & _ & _ & handler & Ev & Killed).
  exists handler. split; [exact Ev |].
  now rewrite Killed, Nothing.
Qed.

Lemma inherited_pid_is_killed_on_exit_witness :
  spawned (events (run agreeable "./run.sh" (Some 1002) (Some "help"))) = []
  /\ exists handler,
       events (run agreeable "./run.sh" (Some 1002) (Some "help"))
         = body_events (run agreeable "./run.sh" (Some 1002) (Some "help"))
           ++ Call "cleanup" [] :: handler
       /\ killed handler = [1002].
Proof.
  split; [reflexivity |].
  apply (inherited_pid_is_killed_on_exit agreeable "./run.sh" 1002
           (Some "help")).
  reflexivity.
Defined.

(** * More about the script *)

Ltac pick_outcome :=
  first [ exists (Exited 0); tidy; reflexivity
        | eexists (Exited (S _)); tidy; reflexivity
        | exists Interrupted; tidy; reflexivity ].

(** ** Steps made of one command *)


(** ** start_app, the three modes *)


(** ** cleanup *)

Ltac pick_outcomes :=
  first
    [ exists Interrupted, Interrupted, Interrupted;
      split; [tidy; reflexivity|]
    | eexists (Exited _), Interrupted, Interrupted;
      split; [tidy; reflexivity|]
    | eexists (Exited _), (Exited _), Interrupted;
      split; [tidy; reflexivity|]
    | eexists (Exited _), (Exited _), (Exited _);
      split; [tidy; reflexivity|] ].

(** [cleanup], run from any state: which events it adds and how it ends
    depends only on whether one of its three commands is interrupted. *)
Lemma cleanup_trace (w : world) (s : shell) :
  exists o1 o2 o3,
    cleanup w s
      = (handler_result o1 o2 o3,
         {| trace := trace s ++ handler_events (LOCAL_PID s) o1 o2 o3;
            LOCAL_PID := LOCAL_PID s |})
    /\ ((forall h a, outcome_of w h a <> Interrupted) ->
        exists rc1 rc2 rc3,
          o1 = Exited rc1 /\ o2 = Exited rc2 /\ o3 = Exited rc3).
Proof.
  destruct s as [h [p|]]; destruct w as [present answer pid]; crunch;
    repeat (match goal with
            | |- context [answer ?h ?a] =>
                destruct (answer h a) as [[|?]|] eqn:?
            end; crunch);
    pick_outcomes; intros Calm;
    first [ solve [do 3 eexists; repeat split]
          | exfalso; eapply Calm; eassumption ].
Qed.



(** ** The exit handler, seen from a whole invocation *)

Lemma trap_handler (w : world) (script : string)
    (inherited : option nat) (arg : option string) :
  exists o1 o2 o3,
    events (run w script inherited arg)
      = body_events (run w script inherited arg)
        ++ handler_events (LOCAL_PID (snd (body w script inherited arg)))
             o1 o2 o3
    /\ body_events (run w script inherited arg)
       = trace (snd (body w script inherited arg))
    /\ status (run w script inherited arg)
       = match handler_result o1 o2 o3 with
         | Sigint => SIGINT_STATUS
         | _ => status_of (fst (body w script inherited arg))
         end
    /\ ((forall h a, outcome_of w h a <> Interrupted) ->
        exists rc1 rc2 rc3,
          o1 = Exited rc1 /\ o2 = Exited rc2 /\ o3 = Exited rc3).
Proof.
  unfold run. destruct (body w script inherited arg) as [r s]. cbn [fst snd].
  destruct (cleanup_trace w s) as (o1 & o2 & o3 & E & Calm).
  rewrite E. exists o1, o2, o3. cbn [status body_events events trace].
  split; [reflexivity | split; [reflexivity | split; [| exact Calm]]].
  destruct o1 as [|], o2 as [|], o3 as [|], r; reflexivity.
Qed.



(** ** The prerequisite gate *)

Ltac explore := repeat answer_next; lazy head; cbv -[String.append].

Ltac in_list := repeat first [ left; reflexivity | right ].

Lemma body_gate (w : world) (script : string)
    (inherited : option nat) (arg : option string) :
  needs_tools (selected arg) = true ->
  absent_tools w <> [] ->
  fst (body w script inherited arg) = Exit 1
  /\ filter acts (trace (snd (body w script inherited arg))) = []
  /\ forallb (fun c => (fst c =? "check_prerequisites")
                       || (fst c =? "run_full_pipeline"))
       (calls (trace (snd (body w script inherited arg)))) = true
  /\ In (Print ERROR ("Missing required tools: " ++ join_words (absent_tools w)))
       (trace (snd (body w script inherited arg))).
Proof.
  destruct w as [present answer pid].
  cbv [needs_tools existsb absent_tools required_tools filter tool_present negb].
  pattern (fst (body {| tool_present := present; outcome_of := answer;
                        pid_of := pid |} script inherited arg)),
          (trace (snd (body {| tool_present := present; outcome_of := answer;
                               pid_of := pid |} script inherited arg))),
          (LOCAL_PID (snd (body {| tool_present := present;
                                   outcome_of := answer;
                                   pid_of := pid |} script inherited arg))).
  apply holds_elim. unfold body, main.
  generalize (selected arg); intros c; dispatch c; explore;
    intros N A;
    first [ discriminate N
          | exfalso; apply A; reflexivity
          | repeat split; in_list ].
Qed.



(** ** Commands that need no tool *)

Lemma handler_has_no_lookup (pid : option nat) (o1 o2 o3 : outcome) :
  existsb is_lookup (handler_events pid o1 o2 o3) = false
  /\ existsb (fun e => match e with
                       | Exec _ _ | Spawn _ _ => true
                       | _ => false
                       end) (handler_events pid o1 o2 o3) = false.
Proof.
  destruct pid, o1 as [|], o2 as [|], o3 as [|]; split; reflexivity.
Qed.

Lemma show_help_trace (script : string) (s : shell) :
  show_help script s
    = (Ret tt, {| trace := trace s ++ Call "show_help" []
                                      :: map Echo (help_text script);
                  LOCAL_PID := LOCAL_PID s |}).
Proof. destruct s as [h lp]. cbv -[String.append app]. tidy. reflexivity. Qed.

Lemma echoes_only (ls : list string) :
  existsb is_lookup (map Echo ls) = false
  /\ existsb (fun e => match e with
                       | Exec _ _ | Spawn _ _ => true
                       | _ => false
                       end) (map Echo ls) = false.
Proof. induction ls as [|l ls IH]; [now split | exact IH]. Qed.



(** ** The exit status is the failing command's *)

Lemma body_status_of_failure (w : world) (script : string)
    (inherited : option nat) (arg : option string) :
  Forall (fun e => match e with
                   | Exec argv (Exited (S n)) =>
                       status_of (fst (body w script inherited arg))
                         = status_after argv n
                   | _ => True
                   end) (trace (snd (body w script inherited arg))).
Proof.
  run_body w script inherited arg;
    repeat (apply Forall_cons; [first [exact I | reflexivity] |]);
    apply Forall_nil.
Qed.



(** ** What comes before what *)

Lemma guarded_spec (trigger : event -> bool) (cond : list event -> bool)
    (evs : list event) : forall seen,
  guarded trigger cond seen evs = true ->
  forall pre e post,
    evs = pre ++ e :: post -> trigger e = true -> cond (seen ++ pre) = true.
Proof.
  induction evs as [|x evs IH]; intros seen G pre e post E T.
  - now destruct pre.
  - cbn in G. apply andb_true_iff in G. destruct G as [Here Later].
    destruct pre as [|y pre]; cbn in E; injection E as -> ->.
    + rewrite T in Here. now rewrite app_nil_r.
    + specialize (IH _ Later pre e post eq_refl T).
      now rewrite <- app_assoc in IH.
Qed.

Lemma body_smoke_guarded (w : world) (script : string)
    (inherited : option nat) (arg : option string) :
  guarded enters_test_app started_and_slept []
    (trace (snd (body w script inherited arg))) = true.
Proof. run_body w script inherited arg; reflexivity. Qed.

Lemma body_run_guarded (w : world) (script : string)
    (inherited : option nat) (arg : option string) :
  guarded is_docker_run built [] (trace (snd (body w script inherited arg)))
    = true.
Proof. run_body w script inherited arg; reflexivity. Qed.

Lemma slept_ends_in_sleep (seen : list event) :
  slept seen = true ->
  exists before args, seen = before ++ [Exec ("sleep" :: args) (Exited 0)].
Proof.
  unfold slept. intros S.
  destruct (rev seen) as [|e tl] eqn:R; [discriminate |].
  destruct e as [| | | |argv o| | |]; try discriminate.
  destruct argv as [|tool args]; [discriminate |].
  destruct (String.eqb_spec tool "sleep") as [->|N].
  - destruct o as [[|n]|]; try discriminate.
    exists (rev tl), args. rewrite <- (rev_involutive seen), R. reflexivity.
  - exfalso. revert S.
    destruct tool as [|c tool]; [discriminate |].
    destruct c as [[] [] [] [] [] [] [] []]; try discriminate.
    destruct tool as [|c tool]; [discriminate |].
    destruct c as [[] [] [] [] [] [] [] []]; try discriminate.
    destruct tool as [|c tool]; [discriminate |].
    destruct c as [[] [] [] [] [] [] [] []]; try discriminate.
    destruct tool as [|c tool]; [discriminate |].
    destruct c as [[] [] [] [] [] [] [] []]; try discriminate.
    destruct tool as [|c tool]; [discriminate |].
    destruct c as [[] [] [] [] [] [] [] []]; try discriminate.
    destruct tool as [|c tool]; [now elim N | discriminate].
Qed.

(** X8. The smoke test never runs against something that was not started:
    in every invocation, [test_app] is entered only after a process or
    container was launched, directly after a [sleep] that ran to its end,
    and with nothing failed so far. *)
Theorem smoke_test_only_after_a_start (w : world) (script : string)
    (inherited : option nat) (arg : option string) (pre post : list event) :
  body_events (run w script inherited arg)
    = pre ++ Call "test_app" [] :: post ->
  existsb is_launch pre = true
  /\ existsb failed pre = false
  /\ exists before args, pre = before ++ [Exec ("sleep" :: args) (Exited 0)].
Proof.
  intros E.
  destruct (trap_handler w script inherited arg) as (_ & _ & _ & _ & Body & _).
  rewrite Body in E.
  pose proof (guarded_spec _ _ _ _ (body_smoke_guarded w script inherited arg)
                pre _ post E eq_refl) as G.
  cbn [app] in G. unfold started_and_slept in G.
  apply andb_true_iff in G. destruct G as [G Sl].
  apply andb_true_iff in G. destruct G as [L F].
  apply negb_true_iff in F.
  repeat split; try assumption. now apply slept_ends_in_sleep.
Qed.

Lemma smoke_test_only_after_a_start_witness :
  existsb is_launch
    (firstn 11 (body_events
                  (run agreeable "./run.sh" None (Some "start-local"))))
    = true.
Proof.
  apply (smoke_test_only_after_a_start agreeable "./run.sh" None
           (Some "start-local")
           (firstn 11 (body_events
                         (run agreeable "./run.sh" None (Some "start-local"))))
           (skipn 12 (body_events
                        (run agreeable "./run.sh" None (Some "start-local"))))).
  reflexivity.
Defined.

Lemma argv_eqb_eq (a b : list string) : argv_eqb a b = true -> a = b.
Proof. unfold argv_eqb. now destruct (list_eq_dec string_dec a b). Qed.

(** X9. A container is never started from an image that was not just built:
    in every invocation, [docker run] comes only after [docker build] has
    exited 0 in the same invocation. *)
Theorem docker_run_only_after_build (w : world) (script : string)
    (inherited : option nat) (arg : option string) (pre post : list event)
    (o : outcome) :
  body_events (run w script inherited arg) = pre ++ Exec RUN o :: post ->
  In (Exec BUILD (Exited 0)) pre.
Proof.
  intros E.
  destruct (trap_handler w script inherited arg) as (_ & _ & _ & _ & Body & _).
  rewrite Body in E.
  pose proof (guarded_spec _ _ _ _ (body_run_guarded w script inherited arg)
                pre _ post E eq_refl) as G.
  cbn [app] in G. unfold built in G.
  apply existsb_exists in G. destruct G as (e & I & B).
  destruct e as [| | | |argv [[|n]|]| | |]; try discriminate.
  apply argv_eqb_eq in B. now subst argv.
Qed.

Lemma docker_run_only_after_build_witness :
  In (Exec BUILD (Exited 0))
    (firstn 13 (body_events
                  (run agreeable "./run.sh" None (Some "start-docker")))).
Proof.
  apply (docker_run_only_after_build agreeable "./run.sh" None
           (Some "start-docker")
           (firstn 13 (body_events
                         (run agreeable "./run.sh" None (Some "start-docker"))))
           (skipn 14 (body_events
                        (run agreeable "./run.sh" None (Some "start-docker"))))
           (Exited 0)).
  reflexivity.
Defined.

(** ** The help text and the case statement *)

Ltac try_lines l :=
  lazymatch l with
  | ?x :: ?tl =>
      first [ exists x; split; [in_list | reflexivity] | try_lines tl ]
  end.



(** ** setup and test *)


End ShellFacts.

(** * What the application answers *)

Module AppFacts.

Import App.
Open Scope Z_scope.

(** ** toISOString writes ISO 8601 *)

Lemma append_assoc (a b c : string) :
  ((a ++ b) ++ c = a ++ (b ++ c))%string.
Proof. induction a as [|x a IH]; cbn; [reflexivity | now rewrite IH]. Qed.

Lemma digit_is_digit (n : Z) : is_digit (digit (n mod 10)) = true.
Proof.
  pose proof (Z.mod_pos_bound n 10 ltac:(lia)) as B.
  unfold is_digit, digit. rewrite nat_ascii_embedding by lia.
  apply andb_true_iff. split; apply Nat.leb_le; lia.
Qed.

Lemma digit_value (n : Z) :
  Z.of_nat (nat_of_ascii (digit (n mod 10))) - 48 = n mod 10.
Proof.
  pose proof (Z.mod_pos_bound n 10 ltac:(lia)) as B.
  unfold digit. rewrite nat_ascii_embedding by lia. lia.
Qed.

Lemma digits_snoc (k : nat) : forall acc s,
  digits (S k) acc s
    = and_then (digits k acc s) (fun '(v, s') => digits 1 v s').
Proof.
  induction k as [|k IH]; intros acc s.
  - reflexivity.
  - cbn [digits]. destruct s as [|c s]; [reflexivity|].
    destruct (is_digit c); [| reflexivity].
    now rewrite <- IH.
Qed.

(** Reading back what [pad] wrote. *)
Lemma digits_pad (k : nat) : forall n acc rest,
  digits k acc (pad k n ++ rest)
    = Some (acc * 10 ^ Z.of_nat k + n mod 10 ^ Z.of_nat k, rest).
Proof.
  induction k as [|k IH]; intros n acc rest.
  - cbn. f_equal. f_equal. rewrite Z.mod_1_r. lia.
  - rewrite digits_snoc. cbn [pad]. rewrite append_assoc, IH.
    cbn [and_then digits String.append].
    rewrite digit_is_digit, digit_value. f_equal. f_equal.
    rewrite Nat2Z.inj_succ, Z.pow_succ_r by lia.
    rewrite (Z.rem_mul_r n 10 (10 ^ Z.of_nat k)) by lia. lia.
Qed.

Lemma civil_bounds (days : Z) :
  let '(y, m, d) := civil days in 1 <= m <= 12 /\ 1 <= d <= 31.
Proof.
  unfold civil. cbv zeta.
  set (doe := (days + 719468) mod 146097).
  assert (0 <= doe < 146097) by (apply Z.mod_pos_bound; lia).
  clearbody doe.
  set (yoe := (doe - doe / 1460 + doe / 36524 - doe / 146096) / 365).
  set (doy := doe - (365 * yoe + yoe / 4 - yoe / 100)).
  assert (0 <= doy <= 365)
    by (subst doy yoe; Z.to_euclidean_division_equations; lia).
  clearbody doy.
  set (mp := (5 * doy + 2) / 153).
  assert (0 <= mp <= 11) by (subst mp; Z.to_euclidean_division_equations; lia).
  destruct (Z.ltb_spec mp 10); split; try lia;
    subst mp; Z.to_euclidean_division_equations; lia.
Qed.

Lemma year_part_year_string (y : Z) (rest : string) :
  year_part (year_string y ++ rest) = Some rest.
Proof.
  unfold year_string, year_part.
  destruct ((0 <=? y) && (y <=? 9999)).
  - now rewrite digits_pad.
  - assert (Minus : forall x, digits 4 0 (String "-" x) = None) by reflexivity.
    assert (Plus : forall x, digits 4 0 (String "+" x) = None) by reflexivity.
    destruct (y <? 0); cbn [String.append]; rewrite ?Minus, ?Plus;
      cbn [Ascii.eqb Bool.eqb orb]; now rewrite digits_pad.
Qed.

Lemma toISOString_is_iso8601 (t : Z) : is_iso8601 (toISOString t) = true.
Proof.
  unfold toISOString.
  pose proof (civil_bounds (t / msPerDay)) as B.
  destruct (civil (t / msPerDay)) as [[y m] d]. destruct B as [Bm Bd].
  pose proof (Z.mod_pos_bound t msPerDay ltac:(unfold msPerDay; lia)) as Bms.
  set (ms := t mod msPerDay) in *. unfold msPerDay in Bms.
  unfold is_iso8601.
  rewrite year_part_year_string. cbn [and_then literal String.append Ascii.eqb Bool.eqb].
  repeat (rewrite digits_pad; cbn [and_then literal String.append Ascii.eqb Bool.eqb]).
  change (10 ^ Z.of_nat 2) with 100.
  rewrite !Z.mul_0_l, !Z.add_0_l.
  rewrite (Z.mod_small m 100), (Z.mod_small d 100), (Z.mod_small (ms / 3600000) 100),
    (Z.mod_small (ms / 60000 mod 60) 100), (Z.mod_small (ms / 1000 mod 60) 100);
    try (Z.to_euclidean_division_equations; lia).
  unfold within.
  repeat (apply andb_true_iff; split); apply Z.leb_le;
    Z.to_euclidean_division_equations; lia.
Qed.

(** ** The routes *)

(** C8 as stated does not hold.  A GET request for /health whose body
    [express.json()] rejects never reaches the route: the error handler
    answers it with status 500.  And the version sent is whatever
    [npm_package_version] holds, a semantic version or not. *)
Lemma health_is_not_always_healthy :
  app plain_host {| verb := GET; path := "/health"; body := Malformed |}
    = {| code := 500; sent := Json [("error", "Something went wrong!")] |}
  /\ app banana_host {| verb := GET; path := "/health"; body := Absent |}
     = {| code := 200;
          sent := Json [ ("status", "healthy");
                         ("timestamp", "2024-02-05T10:30:00.000Z");
                         ("version", "banana") ] |}
  /\ is_semver "banana" = false.
Proof. repeat split. Qed.

Lemma route_matches_health (p : string) :
  route_matches "/health" p = true -> route_matches "/" p = false.
Proof.
  unfold route_matches. cbn [String.eqb Ascii.eqb Bool.eqb String.append].
  intros H. apply orb_true_iff in H.
  destruct H as [H|H]; apply String.eqb_eq in H; now rewrite H.
Qed.

(** C8, amended.  A GET request whose path matches the route /health, which
    [express.static] does not answer and whose body [express.json()] does not
    reject, is answered with status 200 and a JSON object with exactly the
    fields status, timestamp and version, in that order: status is "healthy",
    timestamp is [toISOString] of the current time, an ISO 8601 date-time,
    and version is the value of [npm_package_version], or "1.0.0" when that
    is unset or empty.  The version is a semantic version whenever the
    environment's value, if there is one, is. *)
Theorem health_reports_status_time_and_version (h : host) (req : request) :
  verb req = GET ->
  route_matches "/health" (path req) = true ->
  served h req = None ->
  body req <> Malformed ->
  exists timestamp version,
    app h req
      = {| code := 200;
           sent := Json [ ("status", "healthy"); ("timestamp", timestamp);
                          ("version", version) ] |}
    /\ timestamp = toISOString (now h)
    /\ is_iso8601 timestamp = true
    /\ version = or_default (env h "npm_package_version") "1.0.0"
    /\ (env h "npm_package_version" = None -> version = "1.0.0"%string)
    /\ ((forall v, env h "npm_package_version" = Some v ->
                   v = ""%string \/ is_semver v = true) ->
        is_semver version = true).
Proof.
  intros G R S B.
  exists (toISOString (now h)), (or_default (env h "npm_package_version") "1.0.0").
  split; [| repeat split].
  - unfold app, stack, handle, helmet, static, json_parser, root, health, get.
    rewrite G, S, R, (route_matches_health _ R).
    destruct (body req); [reflexivity | reflexivity | contradiction].
  - apply toISOString_is_iso8601.
  - now intros ->.
  - intros V. destruct (env h "npm_package_version") as [[|c v]|]; try reflexivity.
    destruct (V _ eq_refl) as [E|E]; [discriminate E | exact E].
Qed.

Lemma health_reports_status_time_and_version_witness :
  exists timestamp version,
    app plain_host {| verb := GET; path := "/health"; body := Absent |}
      = {| code := 200;
           sent := Json [ ("status", "healthy"); ("timestamp", timestamp);
                          ("version", version) ] |}
    /\ timestamp = toISOString (now plain_host)
    /\ is_iso8601 timestamp = true
    /\ version = or_default (env plain_host "npm_package_version") "1.0.0"
    /\ (env plain_host "npm_package_version" = None -> version = "1.0.0"%string)
    /\ ((forall v, env plain_host "npm_package_version" = Some v ->
                   v = ""%string \/ is_semver v = true) ->
        is_semver version = true).
Proof.
  apply (health_reports_status_time_and_version plain_host
           {| verb := GET; path := "/health"; body := Absent |});
    [reflexivity | reflexivity | reflexivity | discriminate].
Defined.

(** C10 as stated does not hold.  A request for an unknown path whose body
    [express.json()] rejects is answered by the error handler with status
    500; a path that differs from /health only in letter case or by a
    trailing slash is the health route, not an unknown one; and a HEAD
    request for an unknown path gets the status 404 with an empty body. *)
Lemma unknown_path_is_not_always_404 :
  app plain_host {| verb := OTHER "POST"; path := "/nonexistent";
                    body := Malformed |}
    = {| code := 500; sent := Json [("error", "Something went wrong!")] |}
  /\ code (app plain_host {| verb := GET; path := "/HEALTH"; body := Absent |})
     = 200%nat
  /\ code (app plain_host {| verb := GET; path := "/health/"; body := Absent |})
     = 200%nat
  /\ (let req := {| verb := HEAD; path := "/nonexistent"; body := Absent |} in
      on_the_wire req (app plain_host req) = (404%nat, None)).
Proof. repeat split. Qed.

(** C10, amended.  To a request that [express.static] does not answer,
    whose body [express.json()] does not reject and whose path matches none
    of the routes /, /health and /api/info (letter case and one trailing
    slash ignored, as Express matches them) the application answers with
    status 404 and hands the object {"error": "Route not found"} to
    [res.json]: never the page Express writes itself.  For every method but
    HEAD that JSON object is the body sent, never an empty one; a HEAD
    request is sent the status 404 and no body. *)
Theorem unknown_route_is_json_404 (h : host) (req : request) :
  served h req = None ->
  body req <> Malformed ->
  (forall pattern, In pattern ROUTES ->
     route_matches pattern (path req) = false) ->
  app h req = {| code := 404; sent := Json [("error", "Route not found")] |}
  /\ on_the_wire req (app h req)
     = (404%nat,
        match verb req with
        | HEAD => None
        | _ => Some (Json [("error", "Route not found")])
        end).
Proof.
  intros S B R.
  assert (E : app h req
              = {| code := 404;
                   sent := Json [("error", "Route not found")] |}).
  { unfold app, stack, handle, helmet, static, json_parser, root, health,
      info, not_found, get.
    rewrite S, !R by (cbn; tauto).
    destruct (verb req), (body req); solve [reflexivity | contradiction]. }
  split; [exact E |].
  rewrite E. unfold on_the_wire. now destruct (verb req).
Qed.

Lemma unknown_route_is_json_404_witness :
  (let req := {| verb := GET; path := "/nonexistent"; body := Absent |} in
   app plain_host req
     = {| code := 404; sent := Json [("error", "Route not found")] |}
   /\ on_the_wire req (app plain_host req)
      = (404%nat, Some (Json [("error", "Route not found")])))
  /\ (let req := {| verb := HEAD; path := "/nonexistent"; body := Absent |} in
      on_the_wire req (app plain_host req) = (404%nat, None)).
Proof.
  split.
  - apply (unknown_route_is_json_404 plain_host
             {| verb := GET; path := "/nonexistent"; body := Absent |});
      [reflexivity | discriminate |].
    intros pattern [<-|[<-|[<-|[]]]]; reflexivity.
  - apply (unknown_route_is_json_404 plain_host
             {| verb := HEAD; path := "/nonexistent"; body := Absent |});
      [reflexivity | discriminate |].
    intros pattern [<-|[<-|[<-|[]]]]; reflexivity.
Defined.

(** * More about the application *)

Lemma route_matches_info (p : string) :
  route_matches "/api/info" p = true ->
  route_matches "/" p = false /\ route_matches "/health" p = false.
Proof.
  unfold route_matches. cbn [String.eqb Ascii.eqb Bool.eqb String.append].
  intros H. apply orb_true_iff in H.
  destruct H as [H|H]; apply String.eqb_eq in H; now rewrite H.
Qed.

Lemma route_matches_root (p : string) :
  route_matches "/" p = true ->
  route_matches "/health" p = false /\ route_matches "/api/info" p = false.
Proof.
  unfold route_matches. cbn [String.eqb Ascii.eqb Bool.eqb String.append].
  intros H. apply orb_true_iff in H.
  destruct H as [H|H]; apply String.eqb_eq in H; now rewrite H.
Qed.

Lemma route_matches_health_info (p : string) :
  route_matches "/health" p = true -> route_matches "/api/info" p = false.
Proof.
  unfold route_matches. cbn [String.eqb Ascii.eqb Bool.eqb String.append].
  intros H. apply orb_true_iff in H.
  destruct H as [H|H]; apply String.eqb_eq in H; now rewrite H.
Qed.

(** ** The info route *)

(** X12. A GET request that reaches the route /api/info is answered with
    status 200 and a JSON object with the fields message, environment,
    version and hostname, where environment is [NODE_ENV] or "development"
    when that is unset or empty.  The version it reports is the one the
    health route reports on the same host. *)
Theorem info_reports_environment_and_version (h : host) (req : request) :
  verb req = GET ->
  route_matches "/api/info" (path req) = true ->
  served h req = None ->
  body req <> Malformed ->
  app h req
    = {| code := 200;
         sent := Json
           [ ("message", "DevOps Portfolio Application");
             ("environment", or_default (env h "NODE_ENV") "development");
             ("version", or_default (env h "npm_package_version") "1.0.0");
             ("hostname", hostname h) ] |}
  /\ (env h "NODE_ENV" = None ->
      field "environment" (app h req) = Some "development"%string)
  /\ (forall req',
        verb req' = GET ->
        route_matches "/health" (path req') = true ->
        served h req' = None ->
        body req' <> Malformed ->
        field "version" (app h req') = field "version" (app h req)).
Proof.
  intros G R S B.
  destruct (route_matches_info _ R) as [R0 R1].
  assert (E : app h req
              = {| code := 200;
                   sent := Json
                     [ ("message", "DevOps Portfolio Application");
                       ("environment",
                        or_default (env h "NODE_ENV") "development");
                       ("version",
                        or_default (env h "npm_package_version") "1.0.0");
                       ("hostname", hostname h) ] |}).
  { unfold app, stack, handle, helmet, static, json_parser, root, health,
      info, get.
    rewrite G, S, R, R0, R1.
    destruct (body req); [reflexivity | reflexivity | contradiction]. }
  rewrite E. split; [reflexivity | split].
  - intros N. unfold field. cbn. now rewrite N.
  - intros req' G' R' S' B'.
    assert (E' : field "version" (app h req')
                 = Some (or_default (env h "npm_package_version") "1.0.0")).
    { unfold app, stack, handle, helmet, static, json_parser, root, health,
        get.
      rewrite G', S', R', (route_matches_health _ R').
      destruct (body req'); [reflexivity | reflexivity | contradiction]. }
    rewrite E'. reflexivity.
Qed.

Lemma info_reports_environment_and_version_witness :
  field "environment"
    (app plain_host {| verb := GET; path := "/api/info"; body := Absent |})
    = Some "development"%string
  /\ field "version"
       (app plain_host {| verb := GET; path := "/health"; body := Absent |})
     = field "version"
         (app plain_host {| verb := GET; path := "/api/info"; body := Absent |}).
Proof.
  destruct (info_reports_environment_and_version plain_host
              {| verb := GET; path := "/api/info"; body := Absent |})
    as (_ & Env & Version);
    [reflexivity | reflexivity | reflexivity | discriminate |].
  split.
  - apply Env. reflexivity.
  - apply Version; [reflexivity | reflexivity | reflexivity | discriminate].
Defined.

(** ** The index page *)



(** ** Methods, bodies and files *)

(** X14. The application only reads: a request with any method other than
    GET and HEAD (that is what [OTHER] stands for) reaches no route and no
    file, whatever its path and whatever [public/] holds.  It is answered with status 404 and the "Route
    not found" object, or, when [express.json()] rejects its body, with
    status 500 and the error object; never with status 200. *)
Theorem other_methods_reach_nothing (h : host) (name p : string)
    (b : payload) :
  app h {| verb := OTHER name; path := p; body := b |}
    = match b with
      | Malformed =>
          {| code := 500; sent := Json [("error", "Something went wrong!")] |}
      | _ =>
          {| code := 404; sent := Json [("error", "Route not found")] |}
      end.
Proof. destruct b; reflexivity. Qed.

(** X15. A request whose body [express.json()] rejects, and which
    [express.static] has not answered, is answered by the error handler on
    every path, the three routes included: the body is parsed before any
    route is tried.  The handler sets the status 500 and hands the
    "Something went wrong!" object to [res.json]; for every method but HEAD
    that object is the body sent, and a HEAD request is sent the status 500
    and no body. *)
Theorem rejected_body_is_a_500_everywhere (h : host) (req : request) :
  body req = Malformed ->
  served h req = None ->
  app h req
    = {| code := 500; sent := Json [("error", "Something went wrong!")] |}
  /\ on_the_wire req (app h req)
     = (500%nat,
        match verb req with
        | HEAD => None
        | _ => Some (Json [("error", "Something went wrong!")])
        end).
Proof.
  intros B S.
  assert (E : app h req
              = {| code := 500;
                   sent := Json [("error", "Something went wrong!")] |}).
  { unfold app, stack, handle, helmet, static, json_parser.
    rewrite B, S. now destruct (verb req). }
  split; [exact E |].
  rewrite E. unfold on_the_wire. now destruct (verb req).
Qed.

Lemma rejected_body_is_a_500_everywhere_witness :
  (let req := {| verb := GET; path := "/api/info"; body := Malformed |} in
   app plain_host req
     = {| code := 500; sent := Json [("error", "Something went wrong!")] |}
   /\ on_the_wire req (app plain_host req)
      = (500%nat, Some (Json [("error", "Something went wrong!")])))
  /\ (let req := {| verb := HEAD; path := "/health"; body := Malformed |} in
      on_the_wire req (app plain_host req) = (500%nat, None)).
Proof.
  split.
  - apply (rejected_body_is_a_500_everywhere plain_host
             {| verb := GET; path := "/api/info"; body := Malformed |});
      reflexivity.
  - apply (rejected_body_is_a_500_everywhere plain_host
             {| verb := HEAD; path := "/health"; body := Malformed |});
      reflexivity.
Defined.

(** X16. What [express.static] answers is the answer: for a GET or HEAD
    request that it answers, no route runs and the body is never parsed, so
    a file in [public/] under the name of a route hides that route. *)
Theorem static_answers_first (h : host) (req : request) (r : response) :
  verb req = GET \/ verb req = HEAD ->
  served h req = Some r ->
  app h req = r.
Proof.
  intros V S.
  unfold app, stack, handle, helmet, static.
  rewrite S. now destruct V as [-> | ->].
Qed.

Lemma static_answers_first_witness :
  app {| env := fun _ => None; now := 0; hostname := "localhost";
         served := fun _ => Some {| code := 200; sent := File "up" |};
         index_html := None |}
      {| verb := GET; path := "/health"; body := Malformed |}
    = {| code := 200; sent := File "up" |}.
Proof.
  apply static_answers_first; [left; reflexivity | reflexivity].
Defined.

(** X17. When [express.static] does not answer, the application always
    answers itself: the response is never the page Express writes when a
    stack is exhausted, and its status is 200, 404 or 500. *)
Theorem no_request_falls_off_the_stack (h : host) (req : request) :
  served h req = None ->
  is_html (app h req) = false /\ In (code (app h req)) [200; 404; 500]%nat.
Proof.
  intros S.
  unfold app, stack, handle, helmet, static, json_parser, root, health, info,
    not_found, on_error, get.
  rewrite S.
  destruct (verb req), (body req),
    (route_matches "/" (path req)), (route_matches "/health" (path req)),
    (route_matches "/api/info" (path req)), (index_html h);
    split; cbn; tauto.
Qed.

Lemma no_request_falls_off_the_stack_witness :
  is_html (app plain_host {| verb := HEAD; path := "/x"; body := WellFormed |})
    = false.
Proof.
  apply (no_request_falls_off_the_stack plain_host
           {| verb := HEAD; path := "/x"; body := WellFormed |}).
  reflexivity.
Defined.

(** X18. No path matches two of the routes /, /health and /api/info, and so
    the order in which the three [app.get] calls register them does not
    matter: every order gives the same answer to every request. *)
Theorem routes_do_not_shadow_each_other (h : host) (req : request) :
  (length (filter (fun pattern => route_matches pattern (path req)) ROUTES)
     <= 1)%nat
  /\ forall routes, In routes (route_orders h) ->
       handle (stack_with h routes) false req = app h req.
Proof.
  split.
  - unfold ROUTES. cbn [filter].
    destruct (route_matches "/" (path req)) eqn:R0.
    + destruct (route_matches_root _ R0) as [-> ->]. cbn. lia.
    + destruct (route_matches "/health" (path req)) eqn:R1.
      * rewrite (route_matches_health_info _ R1). cbn. lia.
      * destruct (route_matches "/api/info" (path req)); cbn; lia.
  - intros routes I.
    unfold route_orders in I.
    destruct I as [<-|[<-|[<-|[<-|[<-|[<-|[]]]]]]];
      cbv [app stack stack_with handle helmet static json_parser root health
           info not_found on_error get List.app];
      destruct (verb req), (served h req), (body req); try reflexivity;
      (destruct (route_matches "/" (path req)) eqn:R0;
       [ destruct (route_matches_root _ R0) as [R1 R2]; rewrite ?R1, ?R2 |]);
      (destruct (route_matches "/health" (path req)) eqn:R3;
       [ rewrite ?(route_matches_health_info _ R3) |]);
      destruct (route_matches "/api/info" (path req)); reflexivity.
Qed.

Lemma routes_do_not_shadow_each_other_witness :
  handle (stack_with plain_host [info plain_host; health plain_host;
                                 root plain_host]) false
         {| verb := GET; path := "/health"; body := Absent |}
    = app plain_host {| verb := GET; path := "/health"; body := Absent |}.
Proof.
  apply (routes_do_not_shadow_each_other plain_host
           {| verb := GET; path := "/health"; body := Absent |}).
  unfold route_orders. do 5 right. left. reflexivity.
Defined.

End AppFacts.

(** * The health check against the application *)

Module HealthcheckFacts.

Import App Healthcheck.

(** X19. The health check reports healthy (exit status 0) exactly when the
    server answers its request with status 200; any other status, also
    another 2xx, and any error on the request give exit status 1.  Against
    the application, on a host where no file of [public/] takes the place of
    the health route, it logs "HEALTHCHECK STATUS: 200" and reports
    healthy. *)
Theorem healthcheck_passes_on_the_application :
  (forall server,
      exit_code (against server) = 0%nat <-> server probe = Response 200)
  /\ (forall server, exit_code (against server) = 0%nat
                     \/ exit_code (against server) = 1%nat)
  /\ (forall h, served h probe = None ->
        against (serving h)
          = {| console := ["HEALTHCHECK STATUS: 200"%string];
               exit_code := 0%nat |}).
Proof.
  split; [| split].
  - intros server. unfold against, healthCheck.
    destruct (server probe) as [c|]; cbn [exit_code].
    + destruct (Nat.eqb_spec c 200) as [->|N]; split; intros E;
        first [ reflexivity | discriminate E
              | injection E as E; now elim N ].
    + split; discriminate.
  - intros server. unfold against, healthCheck.
    destruct (server probe) as [c|]; cbn [exit_code]; [| now right].
    destruct (c =? 200)%nat; [now left | now right].
  - intros h S. unfold against, serving.
    assert (E : app h probe
                = {| code := 200;
                     sent := Json
                       [ ("status", "healthy");
                         ("timestamp", toISOString (now h));
                         ("version",
                          or_default (env h "npm_package_version") "1.0.0") ] |}).
    { unfold app, stack, handle, helmet, static. rewrite S. reflexivity. }
    rewrite E. reflexivity.
Qed.

Lemma healthcheck_passes_on_the_application_witness :
  against (serving plain_host)
    = {| console := ["HEALTHCHECK STATUS: 200"%string]; exit_code := 0%nat |}
  /\ exit_code (against (fun _ => Response 204)) = 1%nat.
Proof.
  destruct healthcheck_passes_on_the_application as (Iff & Bit & Up).
  split.
  - apply Up. reflexivity.
  - destruct (Bit (fun _ => Response 204)) as [Z|O]; [| exact O].
    apply Iff in Z. discriminate Z.
Defined.

End HealthcheckFacts.

(** * The test suite against the application *)

Module SuiteFacts.

Import App Suite.

(** X20. The four tests of the suite pass against the application on every
    host on which [express.static] finds no file named health, api/info or
    nonexistent in [public/], and on which the index page is there: either
    [express.static] answers / with status 200, or it leaves / to the route
    and [public/index.html] can be sent.  Where [express.static] leaves / to
    the route and the index page cannot be sent, the first test fails. *)
Theorem the_suite_passes (h : host) :
  served h {| verb := GET; path := "/health"; body := Absent |} = None ->
  served h {| verb := GET; path := "/api/info"; body := Absent |} = None ->
  served h {| verb := GET; path := "/nonexistent"; body := Absent |} = None ->
  (match served h {| verb := GET; path := "/"; body := Absent |} with
   | Some r => code r = 200%nat
   | None => index_html h <> None
   end ->
   passes h = true)
  /\ (served h {| verb := GET; path := "/"; body := Absent |} = None ->
      index_html h = None ->
      get_root h = false /\ passes h = false).
Proof.
  intros SH SI SN.
  assert (H1 : get_health h = true).
  { unfold get_health, request_get, app, stack, handle, helmet, static.
    cbn [verb]. rewrite SH. reflexivity. }
  assert (H2 : get_info h = true).
  { unfold get_info, request_get, app, stack, handle, helmet, static.
    cbn [verb]. rewrite SI. reflexivity. }
  assert (H3 : get_nonexistent h = true).
  { unfold get_nonexistent, request_get, app, stack, handle, helmet, static.
    cbn [verb]. rewrite SN. reflexivity. }
  unfold passes, suite. cbn [forallb snd]. rewrite H1, H2, H3.
  unfold get_root, request_get, app, stack, handle, helmet, static.
  cbn [verb]. split.
  - destruct (served h {| verb := GET; path := "/"; body := Absent |})
      as [r|].
    + intros C. unfold statusCodeToBe. rewrite C. reflexivity.
    + intros I. cbn. destruct (index_html h); [reflexivity | now elim I].
  - intros S0 I0. rewrite S0. unfold root, get. cbn. rewrite I0.
    split; reflexivity.
Qed.

Lemma the_suite_passes_witness :
  passes plain_host = true /\ passes bare_host = false.
Proof.
  split.
  - apply (the_suite_passes plain_host);
      [reflexivity | reflexivity | reflexivity | discriminate].
  - apply (the_suite_passes bare_host); reflexivity.
Defined.

End SuiteFacts.
